(** * Collaborative drawing canvas: the server-side state engine

    A shallow embedding of [server/drawing-state.js], [server/rooms.js] and
    the connection handler of [server/server.js], with the properties of the
    operation log (append, undo, redo, eviction), of the room registry
    (lazy creation, delayed reclamation) and of the message dispatch. *)

From Stdlib Require Import ZArith Lia Ascii String.
From stdpp Require Import base tactics option list strings pretty.

Local Open Scope Z_scope.
#[local] Set Warnings "-register-all".

(** ** JavaScript values

    Messages are decoded by [JSON.parse], so every value the server handles
    is a JSON value, [undefined] (a missing property) or a value the server
    builds from those.  Numbers are integers here: the server never computes
    with a number it receives, it tests it for truthiness and passes it on.
    Objects are property lists in insertion order. *)

Inductive value : Type :=
  | VUndefined
  | VNull
  | VBool (b : bool)
  | VNum (n : Z)
  | VStr (s : string)
  | VArr (xs : list value)
  | VObj (fields : list (string * value)).

Definition object : Type := list (string * value).

Module JS.

(** [ToBoolean]: what [if (v)] and [v || w] test. *)
Definition truthy (v : value) : bool :=
  match v with
  | VUndefined | VNull => false
  | VBool b => b
  | VNum n => negb (n =? 0)
  | VStr s => negb (String.eqb s "")
  | VArr _ | VObj _ => true
  end.

(** [a || b] *)
Definition or (a b : value) : value := if truthy a then a else b.

(** Neither [null] nor [undefined]. *)
Definition present (v : value) : bool :=
  match v with
  | VUndefined | VNull => false
  | _ => true
  end.

(** Own property lookup [o.k] on a property list. *)
Fixpoint get (k : string) (o : object) : value :=
  match o with
  | [] => VUndefined
  | (k', v) :: o' => if String.eqb k' k then v else get k o'
  end.

(** Property write [o.k = v]: an existing property keeps its place, a new
    one goes last. *)
Fixpoint set (k : string) (v : value) (o : object) : object :=
  match o with
  | [] => [(k, v)]
  | (k', v') :: o' =>
      if String.eqb k' k then (k, v) :: o' else (k', v') :: set k v o'
  end.

(** [{...v}]: the own properties of an object; nothing for a primitive,
    [null] or [undefined].  (Array and string spreads would give index
    keys; no caller passes one.) *)
Definition spread (v : value) : object :=
  match v with
  | VObj o => o
  | _ => []
  end.

(** [v.k] for an arbitrary value: a [TypeError] ([None]) on [null] and
    [undefined], [undefined] on the other primitives and on arrays for
    the property names the server reads. *)
Definition prop (v : value) (k : string) : option value :=
  match v with
  | VUndefined | VNull => None
  | VObj o => Some (get k o)
  | _ => Some VUndefined
  end.

Section Arrays.
Context {A : Type}.

Definition len (l : list A) : Z := Z.of_nat (length l).

(** [Array.prototype.slice(start, end)], negative arguments counting
    from the end as ECMAScript has it. *)
Definition slice (l : list A) (start end_ : Z) : list A :=
  let k := if start <? 0 then Z.max (len l + start) 0
           else Z.min start (len l) in
  let final := if end_ <? 0 then Z.max (len l + end_) 0
               else Z.min end_ (len l) in
  take (Z.to_nat (Z.max (final - k) 0)) (drop (Z.to_nat k) l).

(** [l[i]] for an integer [i]: [None] stands for [undefined]. *)
Definition index (l : list A) (i : Z) : option A :=
  if i <? 0 then None else l !! Z.to_nat i.

(** [l.push(x)] *)
Definition push (l : list A) (x : A) : list A := l ++ [x].

(** [l.shift()], keeping only the array. *)
Definition shift (l : list A) : list A := tail l.
End Arrays.

End JS.

(** ** drawing-state.js *)

Record DrawingState : Type := mkDrawingState {
  operations : list object;   (* Global operation history *)
  currentIndex : Z;           (* Current position in history *)
  maxOperations : Z           (* Limit history size *)
}.

(** [constructor()] *)
Definition new_DrawingState : DrawingState :=
  {| operations := []; currentIndex := -1; maxOperations := 1000 |}.

(** A stored operation as a returned value ([undefined] when the index
    denotes no element). *)
Definition at_index (ops : list object) (i : Z) : value :=
  match JS.index ops i with
  | Some o => VObj o
  | None => VUndefined
  end.

(** [generateOperationId()]; [now] is what [Date.now()] returned and [rnd]
    is [Math.random().toString(36).substr(2, 9)]. *)
Definition generateOperationId (now : Z) (rnd : string) : string :=
  "op_" +:+ pretty now +:+ "_" +:+ rnd.

(** The object literal [{...operation, timestamp: Date.now(), id: ...}]. *)
Definition stamp (operation : value) (now : Z) (opid : string) : object :=
  JS.set "id" (VStr opid)
    (JS.set "timestamp" (VNum now) (JS.spread operation)).

(** [addOperation(operation)]; [now] and [opid] are the results of the
    calls to [Date.now()] and [generateOperationId()]. *)
Definition addOperation (s : DrawingState) (operation : value)
    (now : Z) (opid : string) : value * DrawingState :=
  (* Remove any operations after current index (redo stack) *)
  let ops1 := JS.slice (operations s) 0 (currentIndex s + 1) in
  (* Add new operation *)
  let ops2 := JS.push ops1 (stamp operation now opid) in
  let idx2 := currentIndex s + 1 in
  (* Limit history size *)
  let s' :=
    if JS.len ops2 >? maxOperations s
    then mkDrawingState (JS.shift ops2) (idx2 - 1) (maxOperations s)
    else mkDrawingState ops2 idx2 (maxOperations s) in
  (at_index (operations s') (currentIndex s'), s').

(** [undo()] *)
Definition undo (s : DrawingState) : value * DrawingState :=
  if currentIndex s <? 0 then (VNull, s)
  else
    let operation := at_index (operations s) (currentIndex s) in
    (operation,
     mkDrawingState (operations s) (currentIndex s - 1) (maxOperations s)).

(** [redo()] *)
Definition redo (s : DrawingState) : value * DrawingState :=
  if currentIndex s >=? JS.len (operations s) - 1 then (VNull, s)
  else
    let s' :=
      mkDrawingState (operations s) (currentIndex s + 1) (maxOperations s) in
    (at_index (operations s') (currentIndex s'), s').

(** [getActiveOperations()] *)
Definition getActiveOperations (s : DrawingState) : list object :=
  JS.slice (operations s) 0 (currentIndex s + 1).

(** [getFullState()] *)
Definition getFullState (s : DrawingState) : value :=
  VObj [("operations", VArr (VObj <$> getActiveOperations s));
        ("currentIndex", VNum (currentIndex s))].

(** [clear()] *)
Definition clear (s : DrawingState) : DrawingState :=
  mkDrawingState [] (-1) (maxOperations s).

(** [canUndo()] *)
Definition canUndo (s : DrawingState) : bool := currentIndex s >=? 0.

(** [canRedo()] *)
Definition canRedo (s : DrawingState) : bool :=
  currentIndex s <? JS.len (operations s) - 1.

(** *** Call sequences on a log *)

Inductive LogCall : Type :=
  | CallAdd (operation : value) (now : Z) (opid : string)
  | CallUndo
  | CallRedo
  | CallClear.

Definition run_call (s : DrawingState) (c : LogCall) : DrawingState :=
  match c with
  | CallAdd operation now opid => (addOperation s operation now opid).2
  | CallUndo => (undo s).2
  | CallRedo => (redo s).2
  | CallClear => clear s
  end.

Definition run_calls (s : DrawingState) (cs : list LogCall) : DrawingState :=
  foldl run_call s cs.

(** A log state the server can be in: what some sequence of calls makes of
    a freshly constructed log. *)
Definition reachable (s : DrawingState) : Prop :=
  ∃ cs, s = run_calls new_DrawingState cs.

Definition is_undo (c : LogCall) : bool :=
  match c with CallUndo => true | _ => false end.

(** *** The invariant of the log and sequences of appends *)

(** The cursor denotes an entry or is -1, the cap is the constructor's and
    the history is within it. *)
Definition log_inv (s : DrawingState) : Prop :=
  -1 <= currentIndex s <= JS.len (operations s) - 1
  ∧ maxOperations s = 1000
  ∧ JS.len (operations s) <= 1000.

(** A sequence of [addOperation] calls, each with the operation passed and
    the time and id it is stamped with, and the entries it stores. *)
Definition append_calls (adds : list (value * Z * string)) : list LogCall :=
  (λ a, CallAdd a.1.1 a.1.2 a.2) <$> adds.

Definition appended (adds : list (value * Z * string)) : list object :=
  (λ a, stamp a.1.1 a.1.2 a.2) <$> adds.

Definition sample_append : value * Z * string :=
  (VObj [("type", VStr "draw"); ("userId", VStr "u1")], 1700000000000,
   "op_1700000000000_k3j5x9q2a").

(** ** JavaScript [Map]

    Entries are kept in insertion order, which is the order [forEach] and
    [values()] visit them in.  Keys are compared as [Map] does for
    primitives (SameValueZero); two arrays or objects are compared by
    content, where JavaScript compares references, so the properties below
    that name a key are stated for string keys, which is what
    [client/websocket.js] sends. *)

Fixpoint value_eqb (a b : value) {struct a} : bool :=
  match a, b with
  | VUndefined, VUndefined => true
  | VNull, VNull => true
  | VBool x, VBool y => Bool.eqb x y
  | VNum x, VNum y => x =? y
  | VStr x, VStr y => String.eqb x y
  | VArr xs, VArr ys =>
      (fix all2 (xs ys : list value) : bool :=
         match xs, ys with
         | [], [] => true
         | x :: xs', y :: ys' => value_eqb x y && all2 xs' ys'
         | _, _ => false
         end) xs ys
  | VObj fs, VObj gs =>
      (fix all2 (fs gs : list (string * value)) : bool :=
         match fs, gs with
         | [], [] => true
         | (k, x) :: fs', (k', y) :: gs' =>
             String.eqb k k' && value_eqb x y && all2 fs' gs'
         | _, _ => false
         end) fs gs
  | _, _ => false
  end.

Module JSMap.
Section WithValues.
Context {V : Type}.

Definition t : Type := list (value * V).

(** [m.get(k)] *)
Fixpoint get (k : value) (m : list (value * V)) : option V :=
  match m with
  | [] => None
  | (k', v) :: m' => if value_eqb k' k then Some v else get k m'
  end.

(** [m.has(k)] *)
Definition has (k : value) (m : list (value * V)) : bool :=
  match get k m with Some _ => true | None => false end.

(** [m.set(k, v)]: an existing key keeps its position. *)
Fixpoint set (k : value) (v : V) (m : list (value * V)) : list (value * V) :=
  match m with
  | [] => [(k, v)]
  | (k', v') :: m' =>
      if value_eqb k' k then (k', v) :: m' else (k', v') :: set k v m'
  end.

(** [m.delete(k)] *)
Fixpoint delete (k : value) (m : list (value * V)) : list (value * V) :=
  match m with
  | [] => []
  | (k', v') :: m' =>
      if value_eqb k' k then m' else (k', v') :: delete k m'
  end.

(** [m.size] *)
Definition size (m : list (value * V)) : Z := Z.of_nat (length m).

End WithValues.
End JSMap.

(** ** rooms.js and server.js: the state *)

(** A WebSocket connection object, by identity. *)
Abbreviation WS := nat.

(** The address of a Room object. *)
Abbreviation loc := nat.

(** A user object of [addUser]. *)
Record User : Type := mkUser {
  user_id : value;
  user_ws : WS;
  user_name : value;
  user_color : value;
  joinedAt : Z;
  user_cursor : value
}.

(** A Room object of [getRoom]. *)
Record Room : Type := mkRoom {
  room_id : value;
  users : list (value * User);       (* userId -> user object *)
  drawingState : DrawingState;
  createdAt : Z
}.

(** The callback [removeUser] hands to [setTimeout], with the time it is
    due at; [timer_room] is the [roomId] its closure captured. *)
Record Timer : Type := mkTimer {
  due : Z;
  timer_room : value
}.

(** The variables of one [wss.on('connection')] closure and the
    [readyState] of its socket. *)
Record Conn : Type := mkConn {
  readyState : Z;
  userId : value;
  roomId : value
}.

(** Everything the server process holds.  Room objects live in [heap] and
    [rooms] maps a room id to the address of its Room, so that two lookups
    can be told to give the very same object.  [clock] is the time in
    milliseconds, read by [Date.now()] and by the timers. *)
Record World : Type := mkWorld {
  rooms : list (value * loc);        (* roomManager.rooms *)
  heap : list Room;
  timers : list Timer;
  conns : list (WS * Conn);
  outbox : list (WS * string);       (* every ws.send(text), oldest first *)
  clock : Z
}.

Definition initial_world : World :=
  {| rooms := []; heap := []; timers := []; conns := []; outbox := [];
     clock := 0 |}.

Definition set_rooms (f : list (value * loc) → list (value * loc))
    (w : World) : World :=
  mkWorld (f (rooms w)) (heap w) (timers w) (conns w) (outbox w) (clock w).
Definition set_heap (f : list Room → list Room) (w : World) : World :=
  mkWorld (rooms w) (f (heap w)) (timers w) (conns w) (outbox w) (clock w).
Definition set_timers (f : list Timer → list Timer) (w : World) : World :=
  mkWorld (rooms w) (heap w) (f (timers w)) (conns w) (outbox w) (clock w).
Definition set_conns (f : list (WS * Conn) → list (WS * Conn))
    (w : World) : World :=
  mkWorld (rooms w) (heap w) (timers w) (f (conns w)) (outbox w) (clock w).
Definition set_outbox (f : list (WS * string) → list (WS * string))
    (w : World) : World :=
  mkWorld (rooms w) (heap w) (timers w) (conns w) (f (outbox w)) (clock w).
Definition set_clock (f : Z → Z) (w : World) : World :=
  mkWorld (rooms w) (heap w) (timers w) (conns w) (outbox w) (f (clock w)).

(** *** The state monad the methods run in *)

Definition M (A : Type) : Type := World → A * World.

Definition ret {A} (a : A) : M A := λ w, (a, w).
Definition bind {A B} (m : M A) (k : A → M B) : M B :=
  λ w, k (m w).1 (m w).2.
Definition gets {A} (f : World → A) : M A := λ w, (f w, w).
Definition modify (f : World → World) : M unit := λ w, (tt, f w).

Declare Scope js_scope.
Delimit Scope js_scope with js.
Notation "x <- m ;; k" := (bind m (λ x, k))
  (at level 100, m at next level, right associativity) : js_scope.
Notation "m ;; k" := (bind m (λ _, k))
  (at level 100, right associativity) : js_scope.
Local Open Scope js_scope.

Definition conn_of (ws : WS) (w : World) : option Conn :=
  snd <$> List.find (λ e, Nat.eqb e.1 ws) (conns w).

(** [ws.readyState]; 1 is OPEN, 3 is CLOSED. *)
Definition ready_state (ws : WS) (w : World) : Z :=
  match conn_of ws w with
  | Some c => readyState c
  | None => 3
  end.

Fixpoint put_conn (ws : WS) (c : Conn) (cs : list (WS * Conn))
    : list (WS * Conn) :=
  match cs with
  | [] => [(ws, c)]
  | (ws', c') :: cs' =>
      if Nat.eqb ws' ws then (ws, c) :: cs' else (ws', c') :: put_conn ws c cs'
  end.

(** [ws.send(text)] *)
Definition send (ws : WS) (text : string) : M unit :=
  modify (set_outbox (λ o, o ++ [(ws, text)])).

(** [Date.now()] *)
Definition Date_now : M Z := gets clock.

(** The Room object at an address. *)
Definition room_at (l : loc) (w : World) : option Room :=
  heap w !! l.

(** What a dangling address would read as; the addresses in [rooms] are
    never dangling (see [rooms_ok] and [run_ok]). *)
Definition no_room : Room := mkRoom VUndefined [] new_DrawingState 0.

Definition read_room (l : loc) : M Room :=
  gets (λ w, default no_room (room_at l w)).

Definition update_room (l : loc) (f : Room → Room) : M unit :=
  modify (set_heap (alter f l)).

Definition set_users (f : list (value * User) → list (value * User))
    (r : Room) : Room :=
  mkRoom (room_id r) (f (users r)) (drawingState r) (createdAt r).

Definition set_drawingState (ds : DrawingState) (r : Room) : Room :=
  mkRoom (room_id r) (users r) ds (createdAt r).

Definition set_cursor (cursor : value) (u : User) : User :=
  mkUser (user_id u) (user_ws u) (user_name u) (user_color u) (joinedAt u)
    cursor.

Fixpoint for_each {A} (l : list A) (f : A → M unit) : M unit :=
  match l with
  | [] => ret tt
  | x :: l' => f x ;; for_each l' f
  end.

(** ** rooms.js: the methods of RoomManager *)

Section Server.

(** [JSON.parse], [None] when it throws, and [JSON.stringify]. *)
Variable JSON_parse : string → option value.
Variable JSON_stringify : value → string.

(** [getRoom(roomId)]: the Room object for the id, created if there is
    none. *)
Definition getRoom (roomId : value) : M loc :=
  λ w, match JSMap.get roomId (rooms w) with
       | Some l => (l, w)
       | None =>
           let l := length (heap w) in
           let room := mkRoom roomId [] new_DrawingState (clock w) in
           (l, set_rooms (JSMap.set roomId l) (set_heap (λ h, h ++ [room]) w))
       end.

(** [generateUserColor(index)] *)
Definition generateUserColor (index : Z) : value :=
  let colors :=
    ["#FF6B6B"; "#4ECDC4"; "#45B7D1"; "#FFA07A";
     "#98D8C8"; "#F7DC6F"; "#BB8FCE"; "#85C1E2";
     "#F8B739"; "#52B788"; "#E63946"; "#457B9D"]%string in
  match JS.index colors (index `mod` JS.len colors) with
  | Some c => VStr c
  | None => VUndefined
  end.

(** [addUser(roomId, userId, ws, userData)], with [userData] given by its
    two properties. *)
Definition addUser (roomId userId : value) (ws : WS) (name color : value)
    : M User :=
  l <- getRoom roomId ;;
  room <- read_room l ;;
  now <- Date_now ;;
  let n := JSMap.size (users room) in
  let user :=
    {| user_id := userId;
       user_ws := ws;
       user_name := JS.or name (VStr ("User " +:+ pretty (n + 1)));
       user_color := JS.or color (generateUserColor n);
       joinedAt := now;
       user_cursor := VObj [("x", VNum 0); ("y", VNum 0)] |} in
  update_room l (set_users (JSMap.set userId user)) ;;
  ret user.

(** The callback of the reclamation timer. *)
Definition reclaim (roomId : value) : M unit :=
  currentRoom <- gets (λ w, JSMap.get roomId (rooms w)) ;;
  match currentRoom with
  | Some l =>
      room <- read_room l ;;
      if JSMap.size (users room) =? 0
      then modify (set_rooms (JSMap.delete roomId))
      else ret tt
  | None => ret tt
  end.

(** [setTimeout(() => reclaim, delay)] *)
Definition setTimeout (roomId : value) (delay : Z) : M unit :=
  now <- gets clock ;;
  modify (set_timers (λ ts, ts ++ [mkTimer (now + delay) roomId])).

(** [removeUser(roomId, userId)] *)
Definition removeUser (roomId userId : value) : M unit :=
  found <- gets (λ w, JSMap.get roomId (rooms w)) ;;
  match found with
  | Some l =>
      update_room l (set_users (JSMap.delete userId)) ;;
      room <- read_room l ;;
      (* Clean up empty rooms after 5 minutes *)
      if JSMap.size (users room) =? 0
      then setTimeout roomId (5 * 60 * 1000)
      else ret tt
  | None => ret tt
  end.

(** [getRoomUsers(roomId)] *)
Definition getRoomUsers (roomId : value) : M value :=
  found <- gets (λ w, JSMap.get roomId (rooms w)) ;;
  match found with
  | Some l =>
      room <- read_room l ;;
      ret (VArr ((λ e : value * User,
                    VObj [("id", user_id e.2); ("name", user_name e.2);
                          ("color", user_color e.2);
                          ("cursor", user_cursor e.2)]) <$> users room))
  | None => ret (VArr [])
  end.

(** [updateUserCursor(roomId, userId, cursor)] *)
Definition updateUserCursor (roomId userId cursor : value) : M unit :=
  found <- gets (λ w, JSMap.get roomId (rooms w)) ;;
  match found with
  | Some l =>
      room <- read_room l ;;
      match JSMap.get userId (users room) with
      | Some user =>
          update_room l
            (set_users (JSMap.set userId (set_cursor cursor user)))
      | None => ret tt
      end
  | None => ret tt
  end.

(** [broadcast(roomId, senderId, message)] *)
Definition broadcast (roomId senderId message : value) : M unit :=
  found <- gets (λ w, JSMap.get roomId (rooms w)) ;;
  match found with
  | Some l =>
      room <- read_room l ;;
      let messageStr := JSON_stringify message in
      for_each (users room) (λ e,
        state <- gets (ready_state (user_ws e.2)) ;;
        if negb (value_eqb e.1 senderId) && (state =? 1)   (* 1 = OPEN *)
        then send (user_ws e.2) messageStr
        else ret tt)
  | None => ret tt
  end.

(** [broadcastAll(roomId, message)] *)
Definition broadcastAll (roomId message : value) : M unit :=
  found <- gets (λ w, JSMap.get roomId (rooms w)) ;;
  match found with
  | Some l =>
      room <- read_room l ;;
      let messageStr := JSON_stringify message in
      for_each (users room) (λ e,
        state <- gets (ready_state (user_ws e.2)) ;;
        if state =? 1
        then send (user_ws e.2) messageStr
        else ret tt)
  | None => ret tt
  end.

(** ** server.js: the connection handler *)

(** [generateUserId()] *)
Definition generateUserId (now : Z) (rnd : string) : string :=
  "user_" +:+ pretty now +:+ "_" +:+ rnd.

(** [data.k] inside a handler, where [data.type] has already been read. *)
Definition field (data : value) (k : string) : value :=
  default VUndefined (JS.prop data k).

(** A log method applied to [room.drawingState]. *)
Definition on_log (l : loc) (f : DrawingState → value * DrawingState)
    : M value :=
  room <- read_room l ;;
  let r := f (drawingState room) in
  update_room l (set_drawingState r.2) ;;
  ret r.1.

Definition public_user (user : User) : value :=
  VObj [("id", user_id user); ("name", user_name user);
        ("color", user_color user)].

(** [handleJoin(ws, data)]; it assigns the closure's [userId] and [roomId].
    [rnd] is the random suffix [generateUserId] would draw. *)
Definition handleJoin (ws : WS) (c : Conn) (data : value) (rnd : string)
    : M unit :=
  now <- Date_now ;;
  let userId := JS.or (field data "userId") (VStr (generateUserId now rnd)) in
  let roomId := JS.or (field data "roomId") (VStr "default") in
  modify (set_conns (put_conn ws (mkConn (readyState c) userId roomId))) ;;
  user <- addUser roomId userId ws (field data "name") (field data "color") ;;
  l <- getRoom roomId ;;
  (* Send initial state to the new user *)
  roster <- getRoomUsers roomId ;;
  room <- read_room l ;;
  send ws (JSON_stringify (VObj
    [("type", VStr "init");
     ("userId", userId);
     ("user", public_user user);
     ("users", roster);
     ("drawingState", getFullState (drawingState room))])) ;;
  (* Notify other users about the new user *)
  roster' <- getRoomUsers roomId ;;
  broadcast roomId userId (VObj
    [("type", VStr "user_joined");
     ("user", public_user user);
     ("users", roster')]).

(** [handleDraw(data)]; [rnd] is the random suffix of the operation id. *)
Definition handleDraw (c : Conn) (data : value) (rnd : string) : M unit :=
  l <- getRoom (roomId c) ;;
  now <- Date_now ;;
  (* Add operation to drawing state *)
  operation <- on_log l (λ ds,
    addOperation ds
      (VObj [("type", VStr "draw"); ("userId", userId c);
             ("data", field data "data")])
      now (generateOperationId now rnd)) ;;
  (* Broadcast to all other users *)
  broadcast (roomId c) (userId c)
    (VObj [("type", VStr "draw"); ("operation", operation)]).

(** [handleCursor(data)] *)
Definition handleCursor (c : Conn) (data : value) : M unit :=
  updateUserCursor (roomId c) (userId c) (field data "cursor") ;;
  broadcast (roomId c) (userId c)
    (VObj [("type", VStr "cursor"); ("userId", userId c);
           ("cursor", field data "cursor")]).

(** The payload of the [undo] and [redo] broadcasts. *)
Definition history_event (kind : string) (operation : value)
    (ds : DrawingState) : value :=
  VObj [("type", VStr kind);
        ("operation", operation);
        ("operations", VArr (VObj <$> getActiveOperations ds));
        ("canUndo", VBool (canUndo ds));
        ("canRedo", VBool (canRedo ds))].

(** [handleUndo(data)] *)
Definition handleUndo (c : Conn) (data : value) : M unit :=
  l <- getRoom (roomId c) ;;
  operation <- on_log l undo ;;
  if JS.truthy operation
  then
    room <- read_room l ;;
    broadcastAll (roomId c)
      (history_event "undo" operation (drawingState room))
  else ret tt.

(** [handleRedo(data)] *)
Definition handleRedo (c : Conn) (data : value) : M unit :=
  l <- getRoom (roomId c) ;;
  operation <- on_log l redo ;;
  if JS.truthy operation
  then
    room <- read_room l ;;
    broadcastAll (roomId c)
      (history_event "redo" operation (drawingState room))
  else ret tt.

(** [handleClear(data)] *)
Definition handleClear (c : Conn) (data : value) : M unit :=
  l <- getRoom (roomId c) ;;
  update_room l (λ r, set_drawingState (clear (drawingState r)) r) ;;
  broadcastAll (roomId c) (VObj [("type", VStr "clear")]).

(** The [switch (data.type)] of the message handler. *)
Definition dispatch (ws : WS) (c : Conn) (data type : value) (rnd : string)
    : M unit :=
  match type with
  | VStr t =>
      if String.eqb t "join" then handleJoin ws c data rnd
      else if String.eqb t "draw" then handleDraw c data rnd
      else if String.eqb t "cursor" then handleCursor c data
      else if String.eqb t "undo" then handleUndo c data
      else if String.eqb t "redo" then handleRedo c data
      else if String.eqb t "clear" then handleClear c data
      else ret tt
  | _ => ret tt
  end.

(** The body of [try]: [None] when it throws, which [JSON.parse] does on a
    text that is not JSON and [data.type] does on [null]. *)
Definition try_message (ws : WS) (c : Conn) (message rnd : string)
    (w : World) : option (unit * World) :=
  match JSON_parse message with
  | Some data =>
      match JS.prop data "type" with
      | Some type => Some (dispatch ws c data type rnd w)
      | None => None
      end
  | None => None
  end.

(** [ws.on('message', ...)] *)
Definition on_message (ws : WS) (c : Conn) (message rnd : string) : M unit :=
  λ w, match try_message ws c message rnd w with
       | Some r => r
       | None =>
           send ws (JSON_stringify (VObj
             [("type", VStr "error");
              ("message", VStr "Failed to process message")])) w
       end.

(** [ws.on('close', ...)] *)
Definition on_close (c : Conn) : M unit :=
  if JS.truthy (userId c) && JS.truthy (roomId c)
  then
    removeUser (roomId c) (userId c) ;;
    (* Notify other users *)
    roster <- getRoomUsers (roomId c) ;;
    broadcast (roomId c) (userId c)
      (VObj [("type", VStr "user_left"); ("userId", userId c);
             ("users", roster)])
  else ret tt.

(** *** The event loop *)

(** What the process reacts to: a new connection, a message on a socket
    ([rnd] being what [Math.random().toString(36).substr(2, 9)] gives
    should the handler ask), a socket closing, and time passing. *)
Inductive Event : Type :=
  | Connection (ws : WS)
  | Message (ws : WS) (message : string) (rnd : string)
  | Close (ws : WS)
  | Elapse (ms : Z).

Definition is_due (now : Z) (t : Timer) : bool := due t <=? now.

(** The timers that are due run in the order they were armed in, which is
    the order of their due times: the delay is one constant and the clock
    does not go back. *)
Definition run_timers : M unit :=
  now <- gets clock ;;
  ts <- gets timers ;;
  modify (set_timers (filter (λ t, is_due now t = false))) ;;
  for_each (filter (λ t, is_due now t = true) ts) (λ t, reclaim (timer_room t)).

Definition step (w : World) (e : Event) : World :=
  match e with
  | Connection ws =>
      match conn_of ws w with
      | Some _ => w
      | None =>
          set_conns (λ cs, cs ++ [(ws, mkConn 1 VNull (VStr "default"))]) w
      end
  | Message ws message rnd =>
      match conn_of ws w with
      | Some c =>
          if readyState c =? 1 then (on_message ws c message rnd w).2 else w
      | None => w
      end
  | Close ws =>
      match conn_of ws w with
      | Some c =>
          if readyState c =? 3 then w
          else
            (on_close c
               (set_conns (put_conn ws (mkConn 3 (userId c) (roomId c))) w)).2
      | None => w
      end
  | Elapse ms =>
      (run_timers (set_clock (λ t, t + Z.max ms 0) w)).2
  end.

Definition run (w : World) (es : list Event) : World := foldl step w es.

End Server.

(** ** Sample wire texts

    A handful of message texts with the values [JSON.parse] gives for them,
    and a serializer for the values the server sends, to run the server on
    concrete traffic. *)

Definition dq : string := String "034"%char "".
Definition quoted (s : string) : string := dq +:+ s +:+ dq.

Fixpoint join_with (sep : string) (parts : list string) : string :=
  match parts with
  | [] => ""
  | [p] => p
  | p :: ps => p +:+ sep +:+ join_with sep ps
  end.

(** The text [{"k1":"v1",...}] and the object it denotes, for string
    properties. *)
Definition text_of (props : list (string * string)) : string :=
  "{" +:+ join_with "," ((λ p, quoted p.1 +:+ ":" +:+ quoted p.2) <$> props)
  +:+ "}".
Definition value_of (props : list (string * string)) : value :=
  VObj ((λ p, (p.1, VStr p.2)) <$> props).

Definition sample_messages : list (list (string * string)) :=
  [ [("type", "join"); ("userId", "u1"); ("roomId", "a")];
    [("type", "join"); ("userId", "u2"); ("roomId", "a")];
    [("type", "join"); ("userId", "u3"); ("roomId", "a")];
    [("type", "join"); ("userId", "u2")];
    [("type", "draw"); ("data", "stroke")];
    [("type", "cursor"); ("cursor", "here")];
    [("type", "undo")];
    [("type", "redo")];
    [("type", "clear")] ]%string.

Definition sample_parse (text : string) : option value :=
  value_of <$> List.find (λ m, String.eqb (text_of m) text) sample_messages.

Fixpoint sample_stringify (v : value) : string :=
  match v with
  | VUndefined | VNull => "null"
  | VBool b => if b then "true" else "false"
  | VNum n => pretty n
  | VStr s => quoted s
  | VArr xs => "[" +:+ join_with "," (map sample_stringify xs) +:+ "]"
  | VObj fs =>
      "{" +:+
      join_with ","
        (map (λ f : string * value,
                quoted f.1 +:+ ":" +:+ sample_stringify f.2) fs)
      +:+ "}"
  end.

Definition sample_run : World → list Event → World :=
  run sample_parse sample_stringify.

(** ** Views of the registry *)

(** The Room object registered for an id, if any. *)
Definition room_of (r : value) (w : World) : option Room :=
  JSMap.get r (rooms w) ≫= λ l, heap w !! l.

(** The operation log of a room; a room that does not exist yet has the
    log it will be created with. *)
Definition log_of (r : value) (w : World) : DrawingState :=
  from_option drawingState new_DrawingState (room_of r w).

(** The participants of a room, none if it does not exist. *)
Definition members (r : value) (w : World) : list (value * User) :=
  from_option users [] (room_of r w).

(** The sends of one broadcast of [text]: to the sockets of the
    participants [keep] selects that are open, in [Map] order. *)
Definition audience (keep : value → bool) (us : list (value * User))
    (w : World) (text : string) : list (WS * string) :=
  (λ e : value * User, (user_ws e.2, text)) <$>
  List.filter (λ e : value * User,
    keep e.1 && (ready_state (user_ws e.2) w =? 1)) us.


(** Every registered address holds a Room, and no two ids share one. *)
Definition rooms_ok (w : World) : Prop :=
  Forall (λ e : value * loc, (e.2 < length (heap w))%nat) (rooms w)
  ∧ NoDup (rooms w).*2.

(** A connection that has processed no join: the closure's variables have
    the values they were declared with. *)
Definition unjoined (c : Conn) : Prop :=
  userId c = VNull ∧ roomId c = VStr "default".

(** ** What holds of every world the server gets into *)

(** The registry is well formed, no participant is registered under the id
    [null], and a connection whose [userId] is still [null] still has
    [roomId = 'default']. *)
Definition world_ok (w : World) : Prop :=
  rooms_ok w
  ∧ (∀ l room, heap w !! l = Some room → JSMap.get VNull (users room) = None)
  ∧ (∀ ws c, conn_of ws w = Some c → userId c = VNull → unjoined c).

(** A method keeps a property of the world. *)
Definition preserves {A} (P : World → Prop) (m : M A) : Prop :=
  ∀ w, P w → P (m w).2.

(** ** Sample traffic *)

Definition join_a (u : string) : string :=
  text_of [("type", "join"); ("userId", u); ("roomId", "a")]%string.
Definition join_default : string :=
  text_of [("type", "join"); ("userId", "u2")]%string.
Definition draw_text : string :=
  text_of [("type", "draw"); ("data", "stroke")]%string.

(** Socket 2 has joined room 'default'; socket 1 is connected and has sent
    nothing yet. *)
Definition lobby : World :=
  sample_run initial_world
    [Connection 1%nat; Connection 2%nat;
     Message 2%nat join_default "r0"].

(** Room 'a' with its only participant, on socket 1, who has drawn one
    stroke; socket 2 is connected. *)
Definition studio : World :=
  sample_run initial_world
    [Connection 1%nat; Message 1%nat (join_a "u1") "r0";
     Message 1%nat draw_text "k3j5x9q2a"; Connection 2%nat].

(** A log with three operations of which the last has been undone. *)
Definition sample_log : DrawingState :=
  run_calls new_DrawingState
    [CallAdd (VObj [("type", VStr "draw")]) 1 "op_1_a";
     CallAdd (VObj [("type", VStr "draw")]) 2 "op_2_b";
     CallAdd (VObj [("type", VStr "draw")]) 3 "op_3_c";
     CallUndo].

(** A log filled to the cap. *)
Definition full_log : DrawingState :=
  run_calls new_DrawingState (append_calls (replicate 1000 sample_append)).

(** ** Further vocabulary for the log *)

(** A call that only moves the cursor. *)
Definition is_move (c : LogCall) : bool :=
  match c with CallUndo | CallRedo => true | _ => false end.

(** An entry that has a string [id] and a numeric [timestamp]. *)
Definition is_stamped (o : object) : bool :=
  match JS.get "id" o, JS.get "timestamp" o with
  | VStr _, VNum _ => true
  | _, _ => false
  end.

(** ** Further vocabulary for the registry *)

(** [getStats()] *)
Definition getStats (w : World) : value :=
  VObj
    [("totalRooms", VNum (JSMap.size (rooms w)));
     ("totalUsers",
      VNum (foldl (λ sum (e : value * loc),
                     sum + JSMap.size
                             (users (default no_room (room_at e.2 w))))
              0 (rooms w)))].

(** The colours [generateUserColor] chooses from. *)
Definition palette : list string :=
  ["#FF6B6B"; "#4ECDC4"; "#45B7D1"; "#FFA07A";
   "#98D8C8"; "#F7DC6F"; "#BB8FCE"; "#85C1E2";
   "#F8B739"; "#52B788"; "#E63946"; "#457B9D"]%string.

(** The array [getRoomUsers] makes of a participant map. *)
Definition roster (us : list (value * User)) : value :=
  VArr ((λ e : value * User,
           VObj [("id", user_id e.2); ("name", user_name e.2);
                 ("color", user_color e.2);
                 ("cursor", user_cursor e.2)]) <$> us).

(** No id is registered twice, in the registry and in any room, and every
    room's log satisfies the invariant of the log. *)
Definition store_ok (w : World) : Prop :=
  NoDup (rooms w).*1
  ∧ ∀ l room, heap w !! l = Some room →
      NoDup (users room).*1 ∧ log_inv (drawingState room).

(** A decoder that, beside the sample messages, decodes the text [null]
    and a message of a type the server does not know. *)
Definition ping_text : string := text_of [("type", "ping")]%string.

Definition wider_parse (text : string) : option value :=
  if String.eqb text "null" then Some VNull
  else if String.eqb text ping_text
       then Some (value_of [("type", "ping")]%string)
       else sample_parse text.

Definition cursor_text : string :=
  text_of [("type", "cursor"); ("cursor", "here")]%string.

(** The events that lead to [studio], and the same followed by the
    departure of its only participant. *)
Definition studio_events : list Event :=
  [Connection 1%nat; Message 1%nat (join_a "u1") "r0";
   Message 1%nat draw_text "k3j5x9q2a"; Connection 2%nat].

Definition deserted_events : list Event :=
  studio_events ++ [Close 1%nat].


(** * Properties of the operation log *)

Section SliceFacts.
Context {A : Type}.
Implicit Types l : list A.

Lemma len_app l (x : A) : JS.len (l ++ [x]) = JS.len l + 1.
Proof. unfold JS.len. rewrite length_app. simpl. lia. Qed.

Lemma len_nonneg l : 0 <= JS.len l.
Proof. unfold JS.len. lia. Qed.

Lemma slice_prefix l (e : Z) :
  0 <= e → JS.slice l 0 e = take (Z.to_nat e) l.
Proof.
  intros He. unfold JS.slice, JS.len.
  replace (0 <? 0) with false by reflexivity.
  destruct (Z.ltb_spec e 0) as [?|_]; [lia|].
  rewrite (Z.min_l 0) by lia. rewrite drop_0.
  destruct (Z.le_gt_cases e (Z.of_nat (length l))) as [Hle|Hgt].
  - f_equal. lia.
  - rewrite !take_ge; [done | lia | lia].
Qed.

Lemma slice_all l (e : Z) : JS.len l <= e → JS.slice l 0 e = l.
Proof.
  intros He. pose proof (len_nonneg l).
  rewrite slice_prefix by lia. apply take_ge. unfold JS.len in *. lia.
Qed.

Lemma index_last l (x : A) : JS.index (l ++ [x]) (JS.len l) = Some x.
Proof.
  unfold JS.index, JS.len.
  destruct (Z.ltb_spec (Z.of_nat (length l)) 0) as [?|_]; [lia|].
  rewrite Nat2Z.id. apply list_lookup_middle. done.
Qed.

Lemma index_in_range l (i : Z) :
  0 <= i < JS.len l → is_Some (JS.index l i).
Proof.
  unfold JS.index, JS.len. intros Hi.
  destruct (Z.ltb_spec i 0) as [?|_]; [lia|].
  apply lookup_lt_is_Some. lia.
Qed.

End SliceFacts.

(** ** The invariant of the log *)

Lemma log_inv_new : log_inv new_DrawingState.
Proof. unfold log_inv, new_DrawingState, JS.len. simpl. lia. Qed.

(** What [addOperation] does to a log whose cursor is in range: the redo
    tail goes, the stamped operation is pushed, and the oldest entry is
    shifted out when the cap is exceeded. *)
Lemma addOperation_in_range s operation now opid :
  -1 <= currentIndex s <= JS.len (operations s) - 1 →
  let kept := getActiveOperations s in
  let st := stamp operation now opid in
  addOperation s operation now opid =
    if JS.len kept + 1 >? maxOperations s
    then (at_index (tail (kept ++ [st])) (currentIndex s),
          mkDrawingState (tail (kept ++ [st])) (currentIndex s)
            (maxOperations s))
    else (VObj st,
          mkDrawingState (kept ++ [st]) (currentIndex s + 1)
            (maxOperations s)).
Proof.
  intros Hi kept st. unfold addOperation, JS.push, JS.shift.
  fold (getActiveOperations s). fold kept. fold st.
  rewrite len_app.
  assert (Hk : JS.len kept = currentIndex s + 1).
  { unfold kept, getActiveOperations. rewrite slice_prefix by lia.
    unfold JS.len in *. rewrite length_take. lia. }
  destruct (JS.len kept + 1 >? maxOperations s); simpl.
  - replace (currentIndex s + 1 - 1) with (currentIndex s) by lia. done.
  - unfold at_index. rewrite <- Hk, index_last. done.
Qed.

Lemma active_length s :
  -1 <= currentIndex s <= JS.len (operations s) - 1 →
  JS.len (getActiveOperations s) = currentIndex s + 1.
Proof.
  intros Hi. unfold getActiveOperations. rewrite slice_prefix by lia.
  unfold JS.len in *. rewrite length_take. lia.
Qed.

Lemma len_tail {A} (l : list A) : l ≠ [] → JS.len (tail l) = JS.len l - 1.
Proof. destruct l; [done|]. unfold JS.len. simpl. lia. Qed.

Lemma log_inv_add s operation now opid :
  log_inv s → log_inv (addOperation s operation now opid).2.
Proof.
  intros (Hi & Hm & Hl).
  rewrite addOperation_in_range by done. cbv zeta.
  pose proof (active_length s Hi) as Hk.
  destruct (Z.gtb_spec (JS.len (getActiveOperations s) + 1) (maxOperations s));
    unfold log_inv; simpl.
  - rewrite len_tail by (by destruct (getActiveOperations s)).
    rewrite len_app. lia.
  - rewrite len_app. lia.
Qed.

Lemma log_inv_undo s : log_inv s → log_inv (undo s).2.
Proof.
  intros (Hi & Hm & Hl). unfold undo.
  destruct (Z.ltb_spec (currentIndex s) 0); unfold log_inv; simpl; lia.
Qed.

Lemma log_inv_redo s : log_inv s → log_inv (redo s).2.
Proof.
  intros (Hi & Hm & Hl). unfold redo.
  destruct (Z.geb_spec (currentIndex s) (JS.len (operations s) - 1));
    unfold log_inv; simpl; lia.
Qed.

Lemma log_inv_clear s : log_inv s → log_inv (clear s).
Proof.
  intros (Hi & Hm & Hl). unfold log_inv, clear, JS.len. simpl. lia.
Qed.

Lemma log_inv_call s c : log_inv s → log_inv (run_call s c).
Proof.
  intros Hs. destruct c; simpl.
  - by apply log_inv_add.
  - by apply log_inv_undo.
  - by apply log_inv_redo.
  - by apply log_inv_clear.
Qed.

Lemma log_inv_calls cs : ∀ s, log_inv s → log_inv (run_calls s cs).
Proof.
  unfold run_calls. induction cs as [|c cs IH]; simpl; [done|].
  intros s Hs. apply IH, log_inv_call, Hs.
Qed.

Lemma reachable_inv s : reachable s → log_inv s.
Proof. intros [cs ->]. apply log_inv_calls, log_inv_new. Qed.

Lemma reachable_new : reachable new_DrawingState.
Proof. by exists []. Qed.

Lemma reachable_call s c : reachable s → reachable (run_call s c).
Proof.
  intros [cs ->]. exists (cs ++ [c]). unfold run_calls.
  by rewrite foldl_app.
Qed.

Lemma reachable_calls s cs : reachable s → reachable (run_calls s cs).
Proof.
  intros [cs0 ->]. exists (cs0 ++ cs). unfold run_calls.
  by rewrite foldl_app.
Qed.

(** ** Appending *)

Lemma active_at_top s :
  currentIndex s = JS.len (operations s) - 1 →
  getActiveOperations s = operations s.
Proof.
  intros Hi. unfold getActiveOperations. apply slice_all. lia.
Qed.

Lemma appends_from s adds :
  log_inv s → currentIndex s = JS.len (operations s) - 1 →
  let s' := run_calls s (append_calls adds) in
  operations s' =
    drop (length (operations s) + length adds - 1000)
      (operations s ++ appended adds)
  ∧ currentIndex s' = JS.len (operations s') - 1.
Proof.
  revert s. induction adds as [|a adds IH]; intros s Hinv Htop.
  - simpl. destruct Hinv as (_ & _ & Hlen). unfold JS.len in Hlen.
    rewrite app_nil_r.
    replace (length (operations s) + 0 - 1000)%nat with 0%nat by lia.
    by rewrite drop_0.
  - cbv zeta.
    change (run_calls s (append_calls (a :: adds)))
      with (run_calls (addOperation s a.1.1 a.1.2 a.2).2 (append_calls adds)).
    change (appended (a :: adds))
      with (stamp a.1.1 a.1.2 a.2 :: appended adds).
    change (length (a :: adds)) with (S (length adds)).
    pose proof (log_inv_add s a.1.1 a.1.2 a.2 Hinv) as Hinv1.
    destruct Hinv as (Hi & Hm & Hlen).
    pose proof (addOperation_in_range s a.1.1 a.1.2 a.2 Hi) as Hadd.
    cbv zeta in Hadd. rewrite (active_at_top s Htop) in Hadd.
    set (s1 := (addOperation s a.1.1 a.1.2 a.2).2) in *.
    assert (Hs1 :
      (operations s1 = operations s ++ [stamp a.1.1 a.1.2 a.2]
       ∧ (length (operations s) < 1000)%nat
       ∨ operations s1 = tail (operations s ++ [stamp a.1.1 a.1.2 a.2])
         ∧ length (operations s) = 1000%nat)
      ∧ currentIndex s1 = JS.len (operations s1) - 1).
    { subst s1. rewrite Hadd. unfold JS.len in *.
      destruct (Z.gtb_spec (Z.of_nat (length (operations s)) + 1)
                  (maxOperations s)); simpl.
      - split; [right; split; [done|lia]|].
        destruct (operations s) as [|o ops]; simpl in *; [lia|].
        rewrite length_app. simpl. lia.
      - split; [left; split; [done|lia]|].
        rewrite length_app. simpl. lia. }
    destruct Hs1 as [Hops Htop1].
    destruct (IH s1 Hinv1 Htop1) as [IHops IHtop].
    split; [|exact IHtop].
    rewrite IHops.
    destruct Hops as [[-> Hlt]|[-> Hfull]].
    + rewrite length_app. simpl. rewrite <- app_assoc. simpl.
      f_equal. lia.
    + destruct (operations s) as [|o ops]; simpl in *; [lia|].
      rewrite length_app. simpl. rewrite <- app_assoc. simpl.
      match goal with
      | |- drop ?a _ = drop ?b _ =>
          replace a with (length adds) by lia;
          replace b with (S (length adds)) by lia
      end.
      done.
Qed.

Lemma appends_within_cap (adds : list (value * Z * string)) :
  (length adds <= 1000)%nat →
  getActiveOperations (run_calls new_DrawingState (append_calls adds))
  = appended adds.
Proof.
  intros Hn.
  destruct (appends_from new_DrawingState adds log_inv_new eq_refl)
    as [Hops Htop].
  cbv zeta in *. rewrite (active_at_top _ Htop), Hops.
  change (operations new_DrawingState) with (@nil object).
  replace (length (@nil object) + length adds - 1000)%nat with 0%nat
    by (simpl; lia).
  apply drop_0.
Qed.

(** C3, as the code has it: after any sequence of appends to a fresh log,
    with no undo, redo or clear in between, [getActiveOperations()] is the
    appended sequence in call order without its oldest entries beyond the
    cap of 1000; it is the entire sequence when there are at most 1000. *)
Theorem appends_active_is_recent_suffix (adds : list (value * Z * string)) :
  getActiveOperations (run_calls new_DrawingState (append_calls adds))
  = drop (length adds - 1000) (appended adds).
Proof.
  pose proof (appends_from new_DrawingState adds log_inv_new eq_refl)
    as Hfrom.
  cbv zeta in Hfrom. destruct Hfrom as [Hops Htop].
  rewrite (active_at_top _ Htop), Hops.
  change (operations new_DrawingState) with (@nil object).
  reflexivity.
Qed.

(** C3 as stated fails once the cap is passed: after 1001 appends the
    active operations are not the whole appended sequence. *)
Lemma appends_beyond_cap_not_entire :
  getActiveOperations
    (run_calls new_DrawingState (append_calls (replicate 1001 sample_append)))
  ≠ appended (replicate 1001 sample_append).
Proof.
  intros H. apply (f_equal length) in H.
  vm_compute in H. discriminate H.
Qed.

(** ** Eviction at the cap *)

(** C4: on a log that is full ([operations.length = maxOperations]) with the
    cursor on its last entry, one more [addOperation] keeps the length,
    drops exactly the oldest entry, leaves the cursor (incremented, then
    decremented) on the operation just appended, turns the active
    operations into the previous ones without their first followed by the
    new one, and returns the appended operation.  The cap is positive: the
    constructor sets it to 1000 and nothing assigns it. *)
Theorem append_at_capacity (s : DrawingState) (operation : value)
    (now : Z) (opid : string) :
  0 < maxOperations s →
  JS.len (operations s) = maxOperations s →
  currentIndex s = JS.len (operations s) - 1 →
  let r := addOperation s operation now opid in
  let st := stamp operation now opid in
  JS.len (operations r.2) = maxOperations s
  ∧ maxOperations r.2 = maxOperations s
  ∧ operations r.2 = tail (operations s) ++ [st]
  ∧ currentIndex r.2 = currentIndex s + 1 - 1
  ∧ JS.index (operations r.2) (currentIndex r.2) = Some st
  ∧ getActiveOperations r.2 = tail (getActiveOperations s) ++ [st]
  ∧ r.1 = VObj st.
Proof.
  intros Hpos Hfull Htop. cbv zeta.
  assert (Hi : -1 <= currentIndex s <= JS.len (operations s) - 1) by lia.
  pose proof (addOperation_in_range s operation now opid Hi) as Hadd.
  cbv zeta in Hadd. rewrite (active_at_top s Htop) in Hadd.
  set (st := stamp operation now opid) in *.
  destruct (Z.gtb_spec (JS.len (operations s) + 1) (maxOperations s)) as [_|?];
    [|lia].
  destruct (operations s) as [|o ops] eqn:Hops.
  { unfold JS.len in Hfull. simpl in Hfull. lia. }
  simpl in Hadd.
  assert (Hlast : JS.index (ops ++ [st]) (currentIndex s) = Some st).
  { replace (currentIndex s) with (JS.len ops).
    - apply index_last.
    - rewrite Htop. unfold JS.len. simpl. lia. }
  rewrite Hadd. simpl.
  rewrite (active_at_top s) by (rewrite Hops; exact Htop). rewrite Hops.
  unfold at_index. rewrite Hlast. simpl.
  repeat split; try done.
  - rewrite len_app. unfold JS.len in *. simpl in Hfull. lia.
  - lia.
  - apply active_at_top. simpl. rewrite len_app, Htop.
    unfold JS.len. simpl. lia.
Qed.

(** ** Undo and redo *)

Lemma undo_present s :
  log_inv s → canUndo s = JS.present (undo s).1.
Proof.
  intros (Hi & _ & _). unfold canUndo, undo.
  destruct (Z.ltb_spec (currentIndex s) 0) as [Hneg|Hpos]; simpl.
  - rewrite Z.geb_leb. apply Z.leb_gt. lia.
  - destruct (index_in_range (operations s) (currentIndex s)) as [o Ho];
      [lia|].
    unfold at_index. rewrite Ho. simpl. rewrite Z.geb_leb.
    apply Z.leb_le. lia.
Qed.

Lemma redo_present s :
  log_inv s → canRedo s = JS.present (redo s).1.
Proof.
  intros (Hi & _ & _). unfold canRedo, redo.
  destruct (Z.geb_spec (currentIndex s) (JS.len (operations s) - 1))
    as [Hge|Hlt]; simpl.
  - apply Z.ltb_ge. lia.
  - destruct (index_in_range (operations s) (currentIndex s + 1)) as [o Ho];
      [lia|].
    unfold at_index. rewrite Ho. simpl. apply Z.ltb_lt. lia.
Qed.

(** C5: in every reachable log state [canUndo()] is true exactly when
    [undo()] would return an operation, and [canRedo()] is true exactly
    when [redo()] would. *)
Theorem can_agrees_with_outcome (s : DrawingState) :
  reachable s →
  (canUndo s = true ↔ JS.present (undo s).1 = true)
  ∧ (canRedo s = true ↔ JS.present (redo s).1 = true).
Proof.
  intros Hs. apply reachable_inv in Hs.
  rewrite (undo_present s Hs), (redo_present s Hs). done.
Qed.

(** C6: in a log state with [currentIndex >= 0], [undo()] followed at once
    by [redo()] gives back the active operations of before (the whole state,
    in fact), and both calls return the same operation, the entry the
    cursor was on. *)
Theorem undo_then_redo (s : DrawingState) :
  reachable s → 0 <= currentIndex s →
  let u := undo s in
  let r := redo u.2 in
  getActiveOperations r.2 = getActiveOperations s
  ∧ r.2 = s
  ∧ r.1 = u.1
  ∧ JS.present u.1 = true
  ∧ u.1 = at_index (operations s) (currentIndex s).
Proof.
  intros Hs Hpos. apply reachable_inv in Hs. destruct Hs as (Hi & _ & _).
  destruct s as [ops idx cap]. simpl in *.
  unfold undo, redo. simpl.
  destruct (Z.ltb_spec idx 0) as [?|_]; [lia|]. simpl.
  destruct (Z.geb_spec (idx - 1) (JS.len ops - 1)) as [?|_]; [lia|]. simpl.
  replace (idx - 1 + 1) with idx by lia.
  destruct (index_in_range ops idx) as [o Ho]; [lia|].
  unfold at_index. rewrite Ho. done.
Qed.

(** ** The redo tail *)

Lemma add_reaches_top s operation now opid :
  log_inv s →
  let s' := (addOperation s operation now opid).2 in
  currentIndex s' = JS.len (operations s') - 1.
Proof.
  intros (Hi & Hm & Hl).
  rewrite addOperation_in_range by done. cbv zeta.
  pose proof (active_length s Hi) as Hk.
  destruct (Z.gtb_spec (JS.len (getActiveOperations s) + 1) (maxOperations s));
    simpl.
  - rewrite len_tail by (by destruct (getActiveOperations s)).
    rewrite len_app. lia.
  - rewrite len_app. lia.
Qed.

Lemma redo_at_top s :
  currentIndex s = JS.len (operations s) - 1 → redo s = (VNull, s).
Proof.
  intros Htop. unfold redo.
  destruct (Z.geb_spec (currentIndex s) (JS.len (operations s) - 1));
    [done|lia].
Qed.

Lemma top_kept_without_undo cs : ∀ s,
  log_inv s → currentIndex s = JS.len (operations s) - 1 →
  forallb (λ c, negb (is_undo c)) cs = true →
  currentIndex (run_calls s cs)
  = JS.len (operations (run_calls s cs)) - 1.
Proof.
  unfold run_calls.
  induction cs as [|c cs IH]; intros s Hinv Htop Hcs; simpl in *; [done|].
  apply andb_prop in Hcs as [Hc Hcs].
  apply IH; [by apply log_inv_call| |done].
  destruct c; simpl in *; try done.
  - by apply add_reaches_top.
  - by rewrite redo_at_top.
Qed.

(** C7: when undo has left a redo tail ([currentIndex < operations.length -
    1]), one [addOperation] discards the whole tail: the history becomes
    the active operations followed by the new one, [canRedo()] is false and
    [redo()] returns null, and they stay so over any further calls as long
    as none is an [undo()]; an [undo()] makes redo available again. *)
Theorem append_discards_redo_tail (s : DrawingState) (operation : value)
    (now : Z) (opid : string) :
  reachable s → currentIndex s < JS.len (operations s) - 1 →
  let s' := (addOperation s operation now opid).2 in
  operations s' = getActiveOperations s ++ [stamp operation now opid]
  ∧ canRedo s' = false
  ∧ redo s' = (VNull, s')
  ∧ (∀ cs, forallb (λ c, negb (is_undo c)) cs = true →
       canRedo (run_calls s' cs) = false
       ∧ (redo (run_calls s' cs)).1 = VNull)
  ∧ canRedo (undo s').2 = true.
Proof.
  intros Hs Htail s'. apply reachable_inv in Hs.
  pose proof (log_inv_add s operation now opid Hs) as Hinv'.
  pose proof (add_reaches_top s operation now opid Hs) as Htop'.
  fold s' in Hinv', Htop'. cbv zeta in Htop'.
  destruct Hs as (Hi & Hm & Hl).
  pose proof (active_length s Hi) as Hk.
  assert (Hops :
    operations s' = getActiveOperations s ++ [stamp operation now opid]).
  { subst s'. rewrite addOperation_in_range by done. cbv zeta.
    destruct (Z.gtb_spec (JS.len (getActiveOperations s) + 1)
                (maxOperations s)); [lia|done]. }
  split; [exact Hops|].
  split; [unfold canRedo; apply Z.ltb_ge; lia|].
  split; [by apply redo_at_top|].
  split.
  - intros cs Hcs.
    pose proof (top_kept_without_undo cs s' Hinv' Htop' Hcs) as Htop''.
    split; [unfold canRedo; apply Z.ltb_ge; lia|].
    by rewrite redo_at_top.
  - unfold undo, canRedo.
    assert (0 <= currentIndex s').
    { rewrite Htop', Hops, len_app.
      pose proof (len_nonneg (getActiveOperations s)). lia. }
    destruct (Z.ltb_spec (currentIndex s') 0); [lia|]. simpl.
    apply Z.ltb_lt. lia.
Qed.

(** ** The cursor stays in range *)

(** C8: whatever sequence of [addOperation], [undo], [redo] and [clear]
    calls is made on a fresh log, the cursor satisfies
    [-1 <= currentIndex <= operations.length - 1]. *)
Theorem cursor_in_range (cs : list LogCall) :
  let s := run_calls new_DrawingState cs in
  -1 <= currentIndex s <= JS.len (operations s) - 1.
Proof.
  cbv zeta. by destruct (log_inv_calls cs new_DrawingState log_inv_new).
Qed.

(** C10: [undo()] and [redo()] leave the [operations] array as it is, and
    the cap too; of the three fields only [currentIndex] can change. *)
Theorem undo_redo_keep_history (s : DrawingState) :
  operations (undo s).2 = operations s
  ∧ maxOperations (undo s).2 = maxOperations s
  ∧ operations (redo s).2 = operations s
  ∧ maxOperations (redo s).2 = maxOperations s.
Proof.
  unfold undo, redo.
  destruct (currentIndex s <? 0),
    (currentIndex s >=? JS.len (operations s) - 1); done.
Qed.

(** * Properties of the connection handler *)

Section Dispatch.
Variable JSON_parse : string → option value.
Variable JSON_stringify : value → string.

(** C9: a message that [JSON.parse] rejects makes the server send one
    [error] event, to the connection the message came on and to nobody
    else; rooms, logs, timers and connections stay as they are, so the
    connection remains open, and the handler returns normally. *)
Theorem decode_failure_is_local (w : World) (ws : WS) (c : Conn)
    (message rnd : string) :
  conn_of ws w = Some c → readyState c = 1 →
  JSON_parse message = None →
  let w' := step JSON_parse JSON_stringify w (Message ws message rnd) in
  outbox w' =
    outbox w ++
    [(ws, JSON_stringify (VObj
            [("type", VStr "error");
             ("message", VStr "Failed to process message")]))]
  ∧ rooms w' = rooms w
  ∧ heap w' = heap w
  ∧ timers w' = timers w
  ∧ conns w' = conns w
  ∧ ready_state ws w' = 1.
Proof.
  intros Hc Hopen Hbad. simpl.
  unfold ready_state. rewrite Hc, Hopen. simpl.
  unfold on_message, try_message. rewrite Hbad. simpl.
  unfold conn_of at 1. simpl. fold (conn_of ws w). rewrite Hc. simpl.
  done.
Qed.

End Dispatch.

(** ** Facts about [Map] *)

Lemma eqb_str_l (k : value) (s : string) :
  value_eqb k (VStr s) = true → k = VStr s.
Proof.
  destruct k; simpl; try done. intros H. by apply String.eqb_eq in H as ->.
Qed.

Lemma eqb_str_r (k : value) (s : string) :
  value_eqb (VStr s) k = true → k = VStr s.
Proof.
  destruct k; simpl; try done. intros H. by apply String.eqb_eq in H as ->.
Qed.

Section MapFacts.
Context {V : Type}.
Implicit Types m : list (value * V).

Lemma get_elem m r v :
  JSMap.get r m = Some v → ∃ k, (k, v) ∈ m ∧ value_eqb k r = true.
Proof.
  induction m as [|[k' v'] m IH]; simpl; [done|].
  destruct (value_eqb k' r) eqn:Hk.
  - intros [= ->]. exists k'. split; [left|done].
  - intros H. destruct (IH H) as (k & Hin & Hkr).
    exists k. split; [by right|done].
Qed.

Lemma set_fresh m k v :
  JSMap.get k m = None → JSMap.set k v m = m ++ [(k, v)].
Proof.
  induction m as [|[k' v'] m IH]; simpl; [done|].
  destruct (value_eqb k' k); [done|]. intros H. by rewrite IH.
Qed.

Lemma get_snoc m r k v :
  JSMap.get r (m ++ [(k, v)]) =
    match JSMap.get r m with
    | Some x => Some x
    | None => if value_eqb k r then Some v else None
    end.
Proof.
  induction m as [|[k' v'] m IH]; simpl; [done|].
  by destruct (value_eqb k' r).
Qed.


Lemma delete_missing m r :
  JSMap.get r m = None → JSMap.delete r m = m.
Proof.
  induction m as [|[k x] m IH]; simpl; [done|].
  destruct (value_eqb k r); [done|]. intros H. by rewrite IH.
Qed.

Lemma delete_sublist m r : sublist (JSMap.delete r m) m.
Proof.
  induction m as [|[k x] m IH]; simpl; [done|].
  destruct (value_eqb k r).
  - by apply sublist_cons.
  - by apply sublist_skip.
Qed.


End MapFacts.

Lemma snd_unique {A B} (m : list (A * B)) k1 k2 l :
  NoDup m.*2 → (k1, l) ∈ m → (k2, l) ∈ m → k1 = k2.
Proof.
  induction m as [|[k x] m IH]; simpl; intros Hnd H1 H2.
  - by apply elem_of_nil in H1.
  - apply NoDup_cons in Hnd as [Hx Hnd].
    apply elem_of_cons in H1 as [H1|H1]; apply elem_of_cons in H2 as [H2|H2];
      simplify_eq; try done.
    + exfalso. apply Hx. apply list_elem_of_fmap. by exists (k2, x).
    + exfalso. apply Hx. apply list_elem_of_fmap. by exists (k1, x).
    + by apply IH.
Qed.

(** Under [rooms_ok], the Rooms of two different string-named ids are at
    different addresses. *)
Lemma other_room_elsewhere w s r' l l' :
  rooms_ok w →
  JSMap.get (VStr s) (rooms w) = Some l →
  JSMap.get r' (rooms w) = Some l' →
  value_eqb (VStr s) r' = false → l ≠ l'.
Proof.
  intros [_ Hnd] Hl Hl' Hne ->.
  apply get_elem in Hl as (k & Hin & Hk). apply eqb_str_l in Hk as ->.
  apply get_elem in Hl' as (k' & Hin' & Hk').
  rewrite (snd_unique _ _ _ _ Hnd Hin' Hin) in Hk'. congruence.
Qed.

(** ** The methods as state transformers *)

Lemma set_outbox_nil w : set_outbox (λ o, o ++ []) w = w.
Proof. destruct w. unfold set_outbox. simpl. by rewrite app_nil_r. Qed.

Lemma bind_eq {A B} (m : M A) (k : A → M B) w :
  bind m k w = k (m w).1 (m w).2.
Proof. done. Qed.

Lemma for_each_sends (p : value * User → Z → bool) (text : string) us :
  ∀ w,
  for_each us (λ e,
    state <- gets (ready_state (user_ws e.2)) ;;
    if p e state then send (user_ws e.2) text else ret tt) w
  = (tt, set_outbox (λ o, o ++
           ((λ e : value * User, (user_ws e.2, text)) <$>
            List.filter (λ e, p e (ready_state (user_ws e.2) w)) us)) w).
Proof.
  induction us as [|e us IH]; intros w.
  - simpl. unfold ret. by rewrite set_outbox_nil.
  - cbn [for_each]. rewrite bind_eq, bind_eq. cbn [gets fst snd List.filter].
    destruct (p e (ready_state (user_ws e.2) w)) eqn:Hp.
    + rewrite IH. unfold send, modify, set_outbox. cbn. do 2 f_equal.
      by rewrite <- app_assoc.
    + rewrite IH. done.
Qed.

Section Broadcasts.
Variable JSON_stringify : value → string.

Lemma broadcast_spec r sender message w :
  broadcast JSON_stringify r sender message w =
  (tt, set_outbox (λ o, o ++
         audience (λ k, negb (value_eqb k sender)) (members r w) w
           (JSON_stringify message)) w).
Proof.
  unfold broadcast, members, room_of. rewrite bind_eq. cbn [gets fst snd].
  destruct (JSMap.get r (rooms w)) as [l|]; cbn [mbind option_bind].
  - rewrite bind_eq. unfold read_room, room_at. cbn [gets fst snd].
    rewrite (for_each_sends
      (λ e state, negb (value_eqb e.1 sender) && (state =? 1))).
    by destruct (heap w !! l).
  - unfold ret. by rewrite set_outbox_nil.
Qed.

Lemma broadcastAll_spec r message w :
  broadcastAll JSON_stringify r message w =
  (tt, set_outbox (λ o, o ++
         audience (λ _, true) (members r w) w (JSON_stringify message)) w).
Proof.
  unfold broadcastAll, members, room_of. rewrite bind_eq. cbn [gets fst snd].
  destruct (JSMap.get r (rooms w)) as [l|]; cbn [mbind option_bind].
  - rewrite bind_eq. unfold read_room, room_at. cbn [gets fst snd].
    rewrite (for_each_sends (λ e state, state =? 1)).
    by destruct (heap w !! l).
  - unfold ret. by rewrite set_outbox_nil.
Qed.

End Broadcasts.

Lemma audience_frame keep us w1 w2 text :
  conns w1 = conns w2 → audience keep us w1 text = audience keep us w2 text.
Proof.
  intros H. unfold audience, ready_state, conn_of. by rewrite H.
Qed.

Lemma registered_in_heap w r l :
  rooms_ok w → JSMap.get r (rooms w) = Some l → is_Some (heap w !! l).
Proof.
  intros [Hb _] Hg. apply get_elem in Hg as (k & Hin & _).
  apply lookup_lt_is_Some.
  rewrite Forall_forall in Hb. apply (Hb _ Hin).
Qed.

(** [getRoom] on a string id: the Room it returns is registered under the
    id and carries the log and participants the id had (those of a new
    Room if it had none); nothing else changes. *)
Lemma getRoom_spec s w :
  rooms_ok w →
  let g := getRoom (VStr s) w in
  ∃ room,
    JSMap.get (VStr s) (rooms g.2) = Some g.1
    ∧ heap g.2 !! g.1 = Some room
    ∧ drawingState room = log_of (VStr s) w
    ∧ users room = members (VStr s) w
    ∧ rooms_ok g.2
    ∧ timers g.2 = timers w ∧ conns g.2 = conns w
    ∧ outbox g.2 = outbox w ∧ clock g.2 = clock w
    ∧ (∀ r', value_eqb (VStr s) r' = false → room_of r' g.2 = room_of r' w)
    ∧ (is_Some (JSMap.get (VStr s) (rooms w)) → g.2 = w).
Proof.
  intros Hok. unfold getRoom, log_of, members, room_of.
  destruct (JSMap.get (VStr s) (rooms w)) as [l|] eqn:Hg; simpl.
  - destruct (registered_in_heap w _ l Hok Hg) as [room Hroom].
    exists room. rewrite Hg. simpl. rewrite Hroom. simpl.
    destruct Hok as [Hb Hnd]. repeat split; done.
  - exists (mkRoom (VStr s) [] new_DrawingState (clock w)).
    unfold rooms_ok. simpl.
    rewrite !(set_fresh _ _ _ Hg), get_snoc, Hg. simpl.
    rewrite String.eqb_refl.
    destruct Hok as [Hb Hnd].
    repeat split; try done.
    + by apply list_lookup_middle.
    + simpl. apply Forall_app. split.
      * eapply Forall_impl; [exact Hb|]. simpl. intros e He.
        rewrite length_app. simpl. lia.
      * apply Forall_singleton. simpl. rewrite length_app. simpl. lia.
    + simpl. rewrite fmap_app. simpl. apply NoDup_app. split; [done|].
      split; [|apply NoDup_singleton].
      intros l Hl ->%list_elem_of_singleton.
      apply list_elem_of_fmap in Hl as (e & Heq & He).
      rewrite Forall_forall in Hb. specialize (Hb _ He). lia.
    + intros r' Hr'. rewrite get_snoc.
      destruct (JSMap.get r' (rooms w)) as [l'|] eqn:Hg';
        cbn [mbind option_bind].
      * destruct (registered_in_heap w _ l' (conj Hb Hnd) Hg') as [x Hx].
        rewrite Hx. by apply lookup_app_l_Some.
      * change (value_eqb (VStr s) r' = false) in Hr'. by rewrite Hr'.
Qed.

(** Changing the Room registered under a string id, at its address,
    changes that room only. *)
Lemma alter_room_views s w l room (f : Room → Room) :
  rooms_ok w →
  JSMap.get (VStr s) (rooms w) = Some l → heap w !! l = Some room →
  let w' := set_heap (alter f l) w in
  room_of (VStr s) w' = Some (f room)
  ∧ (∀ r', value_eqb (VStr s) r' = false → room_of r' w' = room_of r' w)
  ∧ rooms_ok w'.
Proof.
  intros Hok Hg Hl. cbv zeta. unfold room_of, set_heap. cbn [rooms heap].
  rewrite Hg. cbn [mbind option_bind].
  split; [by rewrite list_lookup_alter_eq, Hl|].
  split.
  - intros r' Hr'.
    destruct (JSMap.get r' (rooms w)) as [l'|] eqn:Hg';
      cbn [mbind option_bind]; [|done].
    apply list_lookup_alter_ne.
    by eapply other_room_elsewhere.
  - destruct Hok as [Hb Hnd]. split; [|done]. cbn [rooms heap].
    eapply Forall_impl; [exact Hb|]. simpl. intros e He.
    by rewrite length_alter.
Qed.

(** [getRoom] followed by an update of the Room it returned. *)
Lemma touch_spec s w (f : Room → Room) :
  rooms_ok w →
  let g := getRoom (VStr s) w in
  let w2 := (update_room g.1 f g.2).2 in
  ∃ room,
    default no_room (room_at g.1 g.2) = room
    ∧ drawingState room = log_of (VStr s) w
    ∧ users room = members (VStr s) w
    ∧ room_of (VStr s) w2 = Some (f room)
    ∧ (∀ r', value_eqb (VStr s) r' = false → room_of r' w2 = room_of r' w)
    ∧ conns w2 = conns w ∧ timers w2 = timers w
    ∧ outbox w2 = outbox w ∧ clock w2 = clock w
    ∧ rooms_ok w2.
Proof.
  intros Hok. cbv zeta.
  destruct (getRoom_spec s w Hok)
    as (room & Hg & Hl & Hlog & Hus & Hok1 & Ht & Hc & Ho & Hk & Hfr & _).
  destruct (alter_room_views s _ _ room f Hok1 Hg Hl) as (Hr & Hfr2 & Hok2).
  exists room. unfold room_at. rewrite Hl.
  unfold update_room, modify. cbn [snd].
  split_and!; try done.
  intros r' Hr'. rewrite Hfr2 by done. by apply Hfr.
Qed.

(** The same followed by sends: what a handler that works on the log of
    its room leaves behind. *)
Lemma log_handler_views s w (f : Room → Room)
    (F : list (WS * string) → list (WS * string)) :
  rooms_ok w → (∀ x, users (f x) = users x) →
  let g := getRoom (VStr s) w in
  let w2 := (update_room g.1 f g.2).2 in
  let w' := set_outbox F w2 in
  ∃ room,
    default no_room (room_at g.1 g.2) = room
    ∧ default no_room (room_at g.1 w2) = f room
    ∧ drawingState room = log_of (VStr s) w
    ∧ clock g.2 = clock w
    ∧ members (VStr s) w2 = members (VStr s) w
    ∧ conns w2 = conns w
    ∧ log_of (VStr s) w' = drawingState (f room)
    ∧ members (VStr s) w' = members (VStr s) w
    ∧ is_Some (room_of (VStr s) w')
    ∧ (∀ r', value_eqb (VStr s) r' = false → room_of r' w' = room_of r' w)
    ∧ conns w' = conns w ∧ timers w' = timers w
    ∧ outbox w' = F (outbox w)
    ∧ rooms_ok w'.
Proof.
  intros Hok Hf. cbv zeta.
  destruct (touch_spec s w f Hok)
    as (room & Hrd & Hlog & Hus & Hr & Hfr & Hc & Ht & Ho & Hk & Hok2).
  destruct (getRoom_spec s w Hok)
    as (room0 & Hg & _ & _ & _ & _ & _ & _ & _ & Hk0 & _).
  exists room.
  set (w2 := (update_room (getRoom (VStr s) w).1 f (getRoom (VStr s) w).2).2)
    in *.
  assert (Hat : room_at (getRoom (VStr s) w).1 w2 = Some (f room)).
  { unfold room_of in Hr. unfold room_at.
    replace (rooms w2) with (rooms (getRoom (VStr s) w).2) in Hr by done.
    by rewrite Hg in Hr. }
  assert (Hv : ∀ r, room_of r (set_outbox F w2) = room_of r w2) by done.
  unfold log_of, members in *.
  rewrite !Hv, Hr, Hat. cbn [from_option default].
  rewrite Hf.
  split_and!; try done.
  unfold set_outbox. cbn [outbox]. by rewrite Ho.
Qed.

Section Handlers.
Variable JSON_parse : string → option value.
Variable JSON_stringify : value → string.

Lemma message_dispatch w ws c message rnd data type :
  conn_of ws w = Some c → readyState c = 1 →
  JSON_parse message = Some data → JS.prop data "type" = Some type →
  step JSON_parse JSON_stringify w (Message ws message rnd)
  = (dispatch JSON_stringify ws c data type rnd w).2.
Proof.
  intros Hc Hopen Hdata Htype. cbn [step].
  rewrite Hc, Hopen. cbn. unfold on_message, try_message.
  by rewrite Hdata, Htype.
Qed.

Lemma handleDraw_spec c s data rnd w :
  rooms_ok w → roomId c = VStr s →
  let w' := (handleDraw JSON_stringify c data rnd w).2 in
  let r := addOperation (log_of (VStr s) w)
             (VObj [("type", VStr "draw"); ("userId", userId c);
                    ("data", field data "data")])
             (clock w) (generateOperationId (clock w) rnd) in
  log_of (VStr s) w' = r.2
  ∧ members (VStr s) w' = members (VStr s) w
  ∧ is_Some (room_of (VStr s) w')
  ∧ (∀ r', value_eqb (VStr s) r' = false → room_of r' w' = room_of r' w)
  ∧ conns w' = conns w ∧ timers w' = timers w
  ∧ outbox w' = outbox w ++
      audience (λ k, negb (value_eqb k (userId c))) (members (VStr s) w) w
        (JSON_stringify (VObj [("type", VStr "draw"); ("operation", r.1)])).
Proof.
  intros Hok Hroom. cbv zeta. unfold handleDraw. rewrite Hroom.
  rewrite !bind_eq. unfold on_log. rewrite !bind_eq.
  cbn [Date_now gets ret fst snd read_room].
  rewrite broadcast_spec. cbn [snd].
  match goal with
  | |- context [update_room _ ?f _] =>
      destruct (log_handler_views s w f
        (λ o, o ++ audience (λ k, negb (value_eqb k (userId c)))
                (members (VStr s) w) w
                (JSON_stringify (VObj
                   [("type", VStr "draw");
                    ("operation",
                     (addOperation (log_of (VStr s) w)
                        (VObj [("type", VStr "draw"); ("userId", userId c);
                               ("data", field data "data")])
                        (clock w) (generateOperationId (clock w) rnd)).1)])))
        Hok (λ _, eq_refl))
        as (room & Hrd & Hrd2 & Hlog & Hk & Hm2 & Hc2 & Hlog' & Hm' & Hsome
            & Hfr & Hc' & Ht' & Ho' & Hok')
  end.
  cbv zeta in *. rewrite Hrd, Hlog, Hk in *. rewrite Hm2.
  rewrite (audience_frame _ _ _ w) by done.
  split_and!; done.
Qed.

Lemma if_sends (b : bool) (F : list (WS * string)) (w : World) :
  (if b then set_outbox (λ o, o ++ F) w else w)
  = set_outbox (λ o, o ++ if b then F else []) w.
Proof. destruct b; [done|]. by rewrite set_outbox_nil. Qed.

Lemma handleUndo_spec c s data w :
  rooms_ok w → roomId c = VStr s →
  let w' := (handleUndo JSON_stringify c data w).2 in
  let r := undo (log_of (VStr s) w) in
  log_of (VStr s) w' = r.2
  ∧ members (VStr s) w' = members (VStr s) w
  ∧ is_Some (room_of (VStr s) w')
  ∧ (∀ r', value_eqb (VStr s) r' = false → room_of r' w' = room_of r' w)
  ∧ conns w' = conns w ∧ timers w' = timers w
  ∧ outbox w' = outbox w ++
      if JS.truthy r.1
      then audience (λ _, true) (members (VStr s) w) w
             (JSON_stringify (history_event "undo" r.1 r.2))
      else [].
Proof.
  intros Hok Hroom. cbv zeta. unfold handleUndo. rewrite Hroom.
  rewrite !bind_eq. unfold on_log. rewrite !bind_eq.
  cbn [gets ret fst snd read_room].
  match goal with
  | |- context [update_room _ ?f _] =>
      destruct (log_handler_views s w f
        (λ o, o ++
           if JS.truthy (undo (log_of (VStr s) w)).1
           then audience (λ _, true) (members (VStr s) w) w
                  (JSON_stringify (history_event "undo"
                     (undo (log_of (VStr s) w)).1
                     (undo (log_of (VStr s) w)).2))
           else [])
        Hok (λ _, eq_refl))
        as (room & Hrd & Hrd2 & Hlog & Hk & Hm2 & Hc2 & Hlog' & Hm' & Hsome
            & Hfr & Hc' & Ht' & Ho' & Hok')
  end.
  cbv zeta in *. rewrite Hrd, Hlog in *.
  destruct (JS.truthy (undo (log_of (VStr s) w)).1) eqn:Htruthy.
  - rewrite bind_eq. cbn [read_room gets fst snd].
    rewrite broadcastAll_spec. cbn [snd].
    rewrite Hrd2, Hm2. cbn [set_drawingState drawingState].
    rewrite (audience_frame _ _ _ w) by done.
    split_and!; done.
  - cbn [ret snd]. rewrite <- (set_outbox_nil (update_room _ _ _).2).
    split_and!; done.
Qed.

Lemma handleRedo_spec c s data w :
  rooms_ok w → roomId c = VStr s →
  let w' := (handleRedo JSON_stringify c data w).2 in
  let r := redo (log_of (VStr s) w) in
  log_of (VStr s) w' = r.2
  ∧ members (VStr s) w' = members (VStr s) w
  ∧ is_Some (room_of (VStr s) w')
  ∧ (∀ r', value_eqb (VStr s) r' = false → room_of r' w' = room_of r' w)
  ∧ conns w' = conns w ∧ timers w' = timers w
  ∧ outbox w' = outbox w ++
      if JS.truthy r.1
      then audience (λ _, true) (members (VStr s) w) w
             (JSON_stringify (history_event "redo" r.1 r.2))
      else [].
Proof.
  intros Hok Hroom. cbv zeta. unfold handleRedo. rewrite Hroom.
  rewrite !bind_eq. unfold on_log. rewrite !bind_eq.
  cbn [gets ret fst snd read_room].
  match goal with
  | |- context [update_room _ ?f _] =>
      destruct (log_handler_views s w f
        (λ o, o ++
           if JS.truthy (redo (log_of (VStr s) w)).1
           then audience (λ _, true) (members (VStr s) w) w
                  (JSON_stringify (history_event "redo"
                     (redo (log_of (VStr s) w)).1
                     (redo (log_of (VStr s) w)).2))
           else [])
        Hok (λ _, eq_refl))
        as (room & Hrd & Hrd2 & Hlog & Hk & Hm2 & Hc2 & Hlog' & Hm' & Hsome
            & Hfr & Hc' & Ht' & Ho' & Hok')
  end.
  cbv zeta in *. rewrite Hrd, Hlog in *.
  destruct (JS.truthy (redo (log_of (VStr s) w)).1) eqn:Htruthy.
  - rewrite bind_eq. cbn [read_room gets fst snd].
    rewrite broadcastAll_spec. cbn [snd].
    rewrite Hrd2, Hm2. cbn [set_drawingState drawingState].
    rewrite (audience_frame _ _ _ w) by done.
    split_and!; done.
  - cbn [ret snd]. rewrite <- (set_outbox_nil (update_room _ _ _).2).
    split_and!; done.
Qed.

Lemma handleClear_spec c s data w :
  rooms_ok w → roomId c = VStr s →
  let w' := (handleClear JSON_stringify c data w).2 in
  log_of (VStr s) w' = clear (log_of (VStr s) w)
  ∧ members (VStr s) w' = members (VStr s) w
  ∧ is_Some (room_of (VStr s) w')
  ∧ (∀ r', value_eqb (VStr s) r' = false → room_of r' w' = room_of r' w)
  ∧ conns w' = conns w ∧ timers w' = timers w
  ∧ outbox w' = outbox w ++
      audience (λ _, true) (members (VStr s) w) w
        (JSON_stringify (VObj [("type", VStr "clear")])).
Proof.
  intros Hok Hroom. cbv zeta. unfold handleClear. rewrite Hroom.
  rewrite !bind_eq. rewrite broadcastAll_spec. cbn [snd].
  match goal with
  | |- context [update_room _ ?f _] =>
      destruct (log_handler_views s w f
        (λ o, o ++ audience (λ _, true) (members (VStr s) w) w
                (JSON_stringify (VObj [("type", VStr "clear")])))
        Hok (λ _, eq_refl))
        as (room & Hrd & Hrd2 & Hlog & Hk & Hm2 & Hc2 & Hlog' & Hm' & Hsome
            & Hfr & Hc' & Ht' & Ho' & Hok')
  end.
  cbv zeta in *. rewrite Hm2.
  rewrite (audience_frame _ _ _ w) by done.
  cbn [set_drawingState drawingState] in Hlog'. rewrite Hlog in Hlog'.
  split_and!; done.
Qed.

Lemma updateUserCursor_absent r u cursor w :
  JSMap.get u (members r w) = None →
  updateUserCursor r u cursor w = (tt, w).
Proof.
  unfold updateUserCursor, members, room_of. rewrite bind_eq.
  cbn [gets fst snd].
  destruct (JSMap.get r (rooms w)) as [l|]; cbn [mbind option_bind]; [|done].
  rewrite bind_eq. unfold read_room, room_at. cbn [gets fst snd].
  destruct (heap w !! l) as [room|]; simpl.
  - by intros ->.
  - done.
Qed.

Lemma handleCursor_absent c data w :
  JSMap.get (userId c) (members (roomId c) w) = None →
  (handleCursor JSON_stringify c data w).2 =
  set_outbox (λ o, o ++
    audience (λ k, negb (value_eqb k (userId c))) (members (roomId c) w) w
      (JSON_stringify (VObj [("type", VStr "cursor"); ("userId", userId c);
                             ("cursor", field data "cursor")]))) w.
Proof.
  intros Habs. unfold handleCursor. rewrite bind_eq.
  rewrite (updateUserCursor_absent _ _ _ _ Habs). cbn [fst snd].
  by rewrite broadcast_spec.
Qed.

End Handlers.

(** * Reclamation of empty rooms *)


Lemma getRoom_found r w l :
  JSMap.get r (rooms w) = Some l → getRoom r w = (l, w).
Proof. intros H. unfold getRoom. by rewrite H. Qed.

Lemma getRoomUsers_pure r w : (getRoomUsers r w).2 = w.
Proof.
  unfold getRoomUsers. rewrite bind_eq. cbn [gets fst snd].
  by destruct (JSMap.get r (rooms w)).
Qed.



Section Reclamation.
Variable JSON_parse : string → option value.
Variable JSON_stringify : value → string.









End Reclamation.

(** * The invariant of the server *)

Section Preservation.
Context (P : World → Prop).

Lemma preserves_ret {A} (a : A) : preserves P (ret a).
Proof. by intros w. Qed.

Lemma preserves_gets {A} (f : World → A) : preserves P (gets f).
Proof. by intros w. Qed.

Lemma preserves_bind {A B} (m : M A) (k : A → M B) :
  preserves P m → (∀ a, preserves P (k a)) → preserves P (bind m k).
Proof. intros Hm Hk w Hw. rewrite bind_eq. by apply Hk, Hm. Qed.

Lemma preserves_modify (f : World → World) :
  (∀ w, P w → P (f w)) → preserves P (modify f).
Proof. intros Hf w Hw. by apply Hf. Qed.

Lemma preserves_for_each {A} (l : list A) (f : A → M unit) :
  (∀ x, preserves P (f x)) → preserves P (for_each l f).
Proof.
  intros Hf. induction l as [|x l IH]; cbn [for_each].
  - apply preserves_ret.
  - apply preserves_bind; [apply Hf|]. intros _. apply IH.
Qed.

End Preservation.

Lemma truthy_not_null v : JS.truthy v = true → value_eqb v VNull = false.
Proof. by destruct v. Qed.

Lemma eqb_null k : value_eqb k VNull = true → k = VNull.
Proof. by destruct k. Qed.

Section MapNone.
Context {V : Type}.
Implicit Types m : list (value * V).

Lemma get_none_set m q k v :
  JSMap.get q m = None → value_eqb k q = false →
  JSMap.get q (JSMap.set k v m) = None.
Proof.
  induction m as [|[k' v'] m IH]; simpl; intros Hq Hk.
  - by rewrite Hk.
  - destruct (value_eqb k' q) eqn:Hk'; [done|].
    destruct (value_eqb k' k); simpl; rewrite Hk'; [done|]. by apply IH.
Qed.

Lemma get_none_delete m q k :
  JSMap.get q m = None → JSMap.get q (JSMap.delete k m) = None.
Proof.
  induction m as [|[k' v'] m IH]; simpl; intros Hq; [done|].
  destruct (value_eqb k' q) eqn:Hk'; [done|].
  destruct (value_eqb k' k); simpl; [done|]. rewrite Hk'. by apply IH.
Qed.

Lemma get_some_not_null m k v :
  JSMap.get VNull m = None → JSMap.get k m = Some v →
  value_eqb k VNull = false.
Proof.
  intros Hnull Hk. destruct (value_eqb k VNull) eqn:E; [|done].
  apply eqb_null in E as ->. congruence.
Qed.

End MapNone.

Lemma world_ok_initial : world_ok initial_world.
Proof.
  split_and!.
  - split; [constructor|simpl; constructor].
  - intros l room H. by destruct l.
  - intros ws c H. done.
Qed.

Lemma ok_update_room l f w :
  (∀ room, JSMap.get VNull (users room) = None →
           JSMap.get VNull (users (f room)) = None) →
  world_ok w → world_ok (set_heap (alter f l) w).
Proof.
  intros Hf ([Hb Hnd] & Hnull & Hcs). split_and!.
  - split; [|done]. cbn [set_heap rooms heap].
    eapply Forall_impl; [exact Hb|]. cbn. intros e He.
    by rewrite length_alter.
  - intros l' room. cbn [set_heap heap].
    destruct (decide (l = l')) as [<-|Hne].
    + rewrite list_lookup_alter_eq.
      destruct (heap w !! l) as [room0|] eqn:Hl; [|done].
      intros [= <-]. apply Hf. by eapply Hnull.
    + rewrite list_lookup_alter_ne by done. apply Hnull.
  - exact Hcs.
Qed.

Lemma ok_getRoom r : preserves world_ok (getRoom r).
Proof.
  intros w ([Hb Hnd] & Hnull & Hcs). unfold getRoom.
  destruct (JSMap.get r (rooms w)) as [l|] eqn:Hg; [done|].
  cbn [snd]. split_and!.
  - unfold rooms_ok. cbn [set_rooms set_heap rooms heap].
    rewrite (set_fresh _ _ _ Hg). split.
    + apply Forall_app. split.
      * eapply Forall_impl; [exact Hb|]. cbn. intros e He.
        rewrite length_app. cbn. lia.
      * apply Forall_singleton. cbn. rewrite length_app. cbn. lia.
    + rewrite fmap_app. cbn. apply NoDup_app. split; [done|].
      split; [|apply NoDup_singleton].
      intros l Hl ->%list_elem_of_singleton.
      apply list_elem_of_fmap in Hl as (e & Heq & He).
      rewrite Forall_forall in Hb. specialize (Hb _ He). lia.
  - intros l room. cbn [set_rooms set_heap rooms heap].
    intros [[_ Hl]|[_ <-]]%lookup_snoc_Some; [by eapply Hnull|done].
  - exact Hcs.
Qed.

Lemma ok_delete_room r w :
  world_ok w → world_ok (set_rooms (JSMap.delete r) w).
Proof.
  intros ([Hb Hnd] & Hnull & Hcs). split_and!; [|done..].
  split; cbn [set_rooms rooms heap].
  - apply Forall_forall. intros e He. rewrite Forall_forall in Hb.
    apply Hb. eapply elem_of_sublist; [exact He|apply delete_sublist].
  - eapply sublist_NoDup; [exact Hnd|].
    apply fmap_sublist, delete_sublist.
Qed.

Lemma conn_of_put ws ws' c' w :
  conn_of ws' (set_conns (put_conn ws c') w) =
  if decide (ws = ws') then Some c' else conn_of ws' w.
Proof.
  unfold conn_of, set_conns. cbn [conns].
  induction (conns w) as [|[x cx] cs IH]; cbn.
  - destruct (Nat.eqb_spec ws ws'), (decide (ws = ws')); done.
  - destruct (Nat.eqb_spec x ws) as [->|Hx]; cbn.
    + destruct (Nat.eqb_spec ws ws'), (decide (ws = ws')); done.
    + destruct (Nat.eqb_spec x ws') as [->|Hx']; [|apply IH].
      by destruct (decide (ws = ws')).
Qed.

Lemma ok_put_conn ws state uid rid w :
  (uid = VNull → rid = VStr "default") →
  world_ok w → world_ok (set_conns (put_conn ws (mkConn state uid rid)) w).
Proof.
  intros Hid (Hr & Hnull & Hcs). split_and!; [done..|].
  intros ws' c. rewrite conn_of_put.
  destruct (decide (ws = ws')) as [_|_]; [|apply Hcs].
  intros [= <-] Hu. cbn in Hu. split; [done|]. by apply Hid.
Qed.

Lemma ok_connection ws w :
  world_ok w →
  world_ok (set_conns (λ cs, cs ++ [(ws, mkConn 1 VNull (VStr "default"))]) w).
Proof.
  intros (Hr & Hnull & Hcs). split_and!; [done..|].
  intros ws' c. unfold conn_of, set_conns. cbn [conns].
  intros Hc Hu.
  assert (Hor : conn_of ws' w = Some c ∨ c = mkConn 1 VNull (VStr "default")).
  { unfold conn_of. induction (conns w) as [|[x cx] cs IH]; cbn in *.
    - destruct (Nat.eqb ws ws'); [|done]. right. by injection Hc.
    - destruct (Nat.eqb x ws'); [by left|]. by apply IH. }
  destruct Hor as [Hold| ->]; [by eapply Hcs|done].
Qed.

(** *** Each method keeps the invariant *)

Lemma ok_send ws text : preserves world_ok (send ws text).
Proof. by intros w Hw. Qed.

Lemma ok_read_room l : preserves world_ok (read_room l).
Proof. by intros w Hw. Qed.

Lemma ok_Date_now : preserves world_ok Date_now.
Proof. by intros w Hw. Qed.

Lemma ok_addUser roomId userId ws name color :
  JS.truthy userId = true →
  preserves world_ok (addUser roomId userId ws name color).
Proof.
  intros Hu. unfold addUser.
  apply preserves_bind; [apply ok_getRoom|]. intros l.
  apply preserves_bind; [apply ok_read_room|]. intros room.
  apply preserves_bind; [apply ok_Date_now|]. intros now.
  apply preserves_bind; [|intros; apply preserves_ret].
  apply preserves_modify. intros w. apply ok_update_room.
  intros room' Hnull. cbn [set_users users].
  apply get_none_set; [done|]. by apply truthy_not_null.
Qed.

Lemma ok_reclaim r : preserves world_ok (reclaim r).
Proof.
  unfold reclaim. apply preserves_bind; [apply preserves_gets|].
  intros [l|]; [|apply preserves_ret].
  apply preserves_bind; [apply ok_read_room|]. intros room.
  destruct (JSMap.size (users room) =? 0); [|apply preserves_ret].
  apply preserves_modify. intros w. apply ok_delete_room.
Qed.

Lemma ok_setTimeout r delay : preserves world_ok (setTimeout r delay).
Proof.
  unfold setTimeout. apply preserves_bind; [apply preserves_gets|].
  intros now. by intros w Hw.
Qed.

Lemma ok_removeUser r u : preserves world_ok (removeUser r u).
Proof.
  unfold removeUser. apply preserves_bind; [apply preserves_gets|].
  intros [l|]; [|apply preserves_ret].
  apply preserves_bind.
  { apply preserves_modify. intros w. apply ok_update_room.
    intros room Hnull. cbn [set_users users]. by apply get_none_delete. }
  intros _. apply preserves_bind; [apply ok_read_room|]. intros room.
  destruct (JSMap.size (users room) =? 0);
    [apply ok_setTimeout|apply preserves_ret].
Qed.

Lemma ok_getRoomUsers r : preserves world_ok (getRoomUsers r).
Proof.
  intros w Hw. by rewrite getRoomUsers_pure.
Qed.

Lemma ok_updateUserCursor r u cursor :
  preserves world_ok (updateUserCursor r u cursor).
Proof.
  intros w Hw. unfold updateUserCursor. rewrite bind_eq.
  cbn [gets fst snd].
  destruct (JSMap.get r (rooms w)) as [l|]; [|done].
  rewrite bind_eq. unfold read_room, room_at. cbn [gets fst snd].
  destruct (JSMap.get u (users (default no_room (heap w !! l))))
    as [user|] eqn:Hu; [|done].
  apply ok_update_room; [|done].
  intros room' Hnull. cbn [set_users users].
  apply get_none_set; [done|].
  eapply get_some_not_null; [|exact Hu].
  destruct (heap w !! l) as [room|] eqn:Hl; [|done].
  destruct Hw as (_ & Hn & _). by eapply Hn.
Qed.

Section HandlersKeep.
Variable JSON_parse : string → option value.
Variable JSON_stringify : value → string.

Lemma ok_broadcast r sender message :
  preserves world_ok (broadcast JSON_stringify r sender message).
Proof. intros w Hw. by rewrite broadcast_spec. Qed.

Lemma ok_broadcastAll r message :
  preserves world_ok (broadcastAll JSON_stringify r message).
Proof. intros w Hw. by rewrite broadcastAll_spec. Qed.

Lemma ok_on_log l f : preserves world_ok (on_log l f).
Proof.
  unfold on_log. apply preserves_bind; [apply ok_read_room|]. intros room.
  apply preserves_bind; [|intros; apply preserves_ret].
  apply preserves_modify. intros w. by apply ok_update_room.
Qed.

Lemma or_truthy a b : JS.truthy b = true → JS.truthy (JS.or a b) = true.
Proof. intros Hb. unfold JS.or. by destruct (JS.truthy a) eqn:Ha. Qed.

Lemma ok_handleJoin ws c data rnd :
  preserves world_ok (handleJoin JSON_stringify ws c data rnd).
Proof.
  unfold handleJoin.
  apply preserves_bind; [apply ok_Date_now|]. intros now.
  assert (Hu : JS.truthy (JS.or (field data "userId")
                 (VStr (generateUserId now rnd))) = true).
  { by apply or_truthy. }
  apply preserves_bind.
  { apply preserves_modify. intros w. apply ok_put_conn.
    intros E. rewrite E in Hu. done. }
  intros _. apply preserves_bind; [by apply ok_addUser|]. intros user.
  apply preserves_bind; [apply ok_getRoom|]. intros l.
  apply preserves_bind; [apply ok_getRoomUsers|]. intros roster.
  apply preserves_bind; [apply ok_read_room|]. intros room.
  apply preserves_bind; [apply ok_send|]. intros _.
  apply preserves_bind; [apply ok_getRoomUsers|]. intros roster'.
  apply ok_broadcast.
Qed.

Lemma ok_handleDraw c data rnd :
  preserves world_ok (handleDraw JSON_stringify c data rnd).
Proof.
  unfold handleDraw.
  apply preserves_bind; [apply ok_getRoom|]. intros l.
  apply preserves_bind; [apply ok_Date_now|]. intros now.
  apply preserves_bind; [apply ok_on_log|]. intros operation.
  apply ok_broadcast.
Qed.

Lemma ok_handleCursor c data :
  preserves world_ok (handleCursor JSON_stringify c data).
Proof.
  unfold handleCursor.
  apply preserves_bind; [apply ok_updateUserCursor|]. intros _.
  apply ok_broadcast.
Qed.

Lemma ok_handleUndo c data :
  preserves world_ok (handleUndo JSON_stringify c data).
Proof.
  unfold handleUndo.
  apply preserves_bind; [apply ok_getRoom|]. intros l.
  apply preserves_bind; [apply ok_on_log|]. intros operation.
  destruct (JS.truthy operation); [|apply preserves_ret].
  apply preserves_bind; [apply ok_read_room|]. intros room.
  apply ok_broadcastAll.
Qed.

Lemma ok_handleRedo c data :
  preserves world_ok (handleRedo JSON_stringify c data).
Proof.
  unfold handleRedo.
  apply preserves_bind; [apply ok_getRoom|]. intros l.
  apply preserves_bind; [apply ok_on_log|]. intros operation.
  destruct (JS.truthy operation); [|apply preserves_ret].
  apply preserves_bind; [apply ok_read_room|]. intros room.
  apply ok_broadcastAll.
Qed.

Lemma ok_handleClear c data :
  preserves world_ok (handleClear JSON_stringify c data).
Proof.
  unfold handleClear.
  apply preserves_bind; [apply ok_getRoom|]. intros l.
  apply preserves_bind; [|intros; apply ok_broadcastAll].
  apply preserves_modify. intros w. by apply ok_update_room.
Qed.

Lemma ok_on_message ws c message rnd :
  preserves world_ok (on_message JSON_parse JSON_stringify ws c message rnd).
Proof.
  intros w Hw. unfold on_message, try_message.
  destruct (JSON_parse message) as [data|]; [|done].
  destruct (JS.prop data "type") as [type|]; [|done].
  unfold dispatch. destruct type; try done.
  repeat match goal with
         | |- context [if ?b then _ else _] => destruct b
         end.
  - by apply ok_handleJoin.
  - by apply ok_handleDraw.
  - by apply ok_handleCursor.
  - by apply ok_handleUndo.
  - by apply ok_handleRedo.
  - by apply ok_handleClear.
  - done.
Qed.

Lemma ok_on_close c : preserves world_ok (on_close JSON_stringify c).
Proof.
  unfold on_close.
  destruct (JS.truthy (userId c) && JS.truthy (roomId c));
    [|apply preserves_ret].
  apply preserves_bind; [apply ok_removeUser|]. intros _.
  apply preserves_bind; [apply ok_getRoomUsers|]. intros roster.
  apply ok_broadcast.
Qed.

Lemma ok_run_timers : preserves world_ok run_timers.
Proof.
  unfold run_timers.
  apply preserves_bind; [apply preserves_gets|]. intros now.
  apply preserves_bind; [apply preserves_gets|]. intros ts.
  apply preserves_bind; [by intros w Hw|]. intros _.
  apply preserves_for_each. intros t. apply ok_reclaim.
Qed.

Lemma ok_step w e :
  world_ok w → world_ok (step JSON_parse JSON_stringify w e).
Proof.
  intros Hw. destruct e as [ws|ws message rnd|ws|ms]; cbn [step].
  - destruct (conn_of ws w); [done|]. by apply ok_connection.
  - destruct (conn_of ws w) as [c|]; [|done].
    destruct (readyState c =? 1); [|done]. by apply ok_on_message.
  - destruct (conn_of ws w) as [c|] eqn:Hc; [|done].
    destruct (readyState c =? 3); [done|].
    apply ok_on_close. apply ok_put_conn; [|done].
    intros Hu. destruct Hw as (_ & _ & Hcs).
    by destruct (Hcs ws c Hc Hu).
  - by apply ok_run_timers.
Qed.

(** Every world the server gets into from its start satisfies the
    invariant: the registry is well formed, no participant has the id
    [null], and a connection with [userId = null] has [roomId = 'default']. *)
Lemma run_ok es :
  world_ok (run JSON_parse JSON_stringify initial_world es).
Proof.
  unfold run. generalize world_ok_initial. generalize initial_world.
  induction es as [|e es IH]; intros w Hw; [done|].
  apply IH. by apply ok_step.
Qed.

(** A connection is unjoined until it receives a join: its variables are
    those it was opened with for as long as [userId] is [null], and no
    participant of any room has the id [null]. *)
Lemma run_unjoined es ws c :
  let w := run JSON_parse JSON_stringify initial_world es in
  conn_of ws w = Some c → userId c = VNull →
  unjoined c ∧ JSMap.get VNull (members (VStr "default") w) = None.
Proof.
  intros w Hc Hu. destruct (run_ok es) as (_ & Hnull & Hcs).
  split; [by eapply Hcs|].
  unfold members, room_of.
  destruct (JSMap.get (VStr "default") (rooms w)) as [l|]; [|done].
  cbn. destruct (heap w !! l) as [room|] eqn:Hl; [|done].
  by eapply Hnull.
Qed.

End HandlersKeep.

(** * Intents before a join *)

Section Unjoined.
Variable JSON_parse : string → option value.
Variable JSON_stringify : value → string.

(** What the five handlers do for a connection whose variables are still
    [userId = null] and [roomId = 'default']. *)
Lemma unjoined_intent_effect (w : World) (ws : WS) (c : Conn)
    (message rnd : string) (data : value) (t : string) :
  rooms_ok w →
  conn_of ws w = Some c → readyState c = 1 → unjoined c →
  JSMap.get VNull (members (VStr "default") w) = None →
  JSON_parse message = Some data → JS.prop data "type" = Some (VStr t) →
  t ∈ ["draw"; "cursor"; "undo"; "redo"; "clear"]%string →
  let d := VStr "default" in
  let w' := step JSON_parse JSON_stringify w (Message ws message rnd) in
  let others := audience (λ k, negb (value_eqb k VNull)) (members d w) w in
  let everyone := audience (λ _, true) (members d w) w in
  conns w' = conns w
  ∧ timers w' = timers w
  ∧ members d w' = members d w
  ∧ (∀ r', value_eqb d r' = false → room_of r' w' = room_of r' w)
  ∧ (t = "draw"%string →
       let r := addOperation (log_of d w)
                  (VObj [("type", VStr "draw"); ("userId", VNull);
                         ("data", field data "data")])
                  (clock w) (generateOperationId (clock w) rnd) in
       is_Some (room_of d w')
       ∧ log_of d w' = r.2
       ∧ outbox w' = outbox w ++
           others (JSON_stringify
             (VObj [("type", VStr "draw"); ("operation", r.1)])))
  ∧ (t = "cursor"%string →
       rooms w' = rooms w ∧ heap w' = heap w
       ∧ outbox w' = outbox w ++
           others (JSON_stringify
             (VObj [("type", VStr "cursor"); ("userId", VNull);
                    ("cursor", field data "cursor")])))
  ∧ (t = "undo"%string →
       let r := undo (log_of d w) in
       is_Some (room_of d w')
       ∧ log_of d w' = r.2
       ∧ outbox w' = outbox w ++
           if JS.truthy r.1
           then everyone (JSON_stringify (history_event "undo" r.1 r.2))
           else [])
  ∧ (t = "redo"%string →
       let r := redo (log_of d w) in
       is_Some (room_of d w')
       ∧ log_of d w' = r.2
       ∧ outbox w' = outbox w ++
           if JS.truthy r.1
           then everyone (JSON_stringify (history_event "redo" r.1 r.2))
           else [])
  ∧ (t = "clear"%string →
       is_Some (room_of d w')
       ∧ log_of d w' = clear (log_of d w)
       ∧ outbox w' = outbox w ++
           everyone (JSON_stringify (VObj [("type", VStr "clear")]))).
Proof.
  intros Hok Hc Hopen [Huid Hrid] Hnull Hdata Htype Ht. cbv zeta.
  rewrite (message_dispatch _ _ w ws c message rnd data (VStr t))
    by done.
  repeat (apply elem_of_cons in Ht as [->|Ht]);
    [ | | | | | by apply elem_of_nil in Ht]; cbn [dispatch String.eqb Ascii.eqb Bool.eqb].
  - destruct (handleDraw_spec JSON_stringify c "default" data rnd w Hok Hrid)
      as (Hlog & Hm & Hsome & Hfr & Hcs & Hts & Hout).
    rewrite Huid in *. split_and!; try done.
  - pose proof (handleCursor_absent JSON_stringify c data w) as Hcur.
    rewrite Huid, Hrid in Hcur. rewrite (Hcur Hnull).
    split_and!; try done.
  - destruct (handleUndo_spec JSON_stringify c "default" data w Hok Hrid)
      as (Hlog & Hm & Hsome & Hfr & Hcs & Hts & Hout).
    split_and!; try done.
  - destruct (handleRedo_spec JSON_stringify c "default" data w Hok Hrid)
      as (Hlog & Hm & Hsome & Hfr & Hcs & Hts & Hout).
    split_and!; try done.
  - destruct (handleClear_spec JSON_stringify c "default" data w Hok Hrid)
      as (Hlog & Hm & Hsome & Hfr & Hcs & Hts & Hout).
    split_and!; try done.
Qed.
(** C1, as the code has it: the handlers have no joined state to test.  In
    any world the server gets into, a connection that has processed no join
    (its [userId] is still [null]) holds [roomId = 'default'], and its
    draw, cursor, undo, redo and clear intents are carried out with those
    values.  Each leaves the connection unjoined, arms no timer, keeps the
    participants of room 'default' and touches no other room.  draw, undo,
    redo and clear make sure room 'default' exists and apply
    [addOperation], [undo], [redo] and [clear] to its log; a cursor intent
    changes no room.  The event goes to the open participants of room
    'default' (for undo and redo only when an operation came back). *)
Theorem unjoined_intent_is_handled (es : list Event) (ws : WS) (c : Conn)
    (message rnd : string) (data : value) (t : string) :
  let w := run JSON_parse JSON_stringify initial_world es in
  conn_of ws w = Some c → readyState c = 1 → userId c = VNull →
  JSON_parse message = Some data → JS.prop data "type" = Some (VStr t) →
  t ∈ ["draw"; "cursor"; "undo"; "redo"; "clear"]%string →
  let d := VStr "default" in
  let w' := step JSON_parse JSON_stringify w (Message ws message rnd) in
  let others := audience (λ k, negb (value_eqb k VNull)) (members d w) w in
  let everyone := audience (λ _, true) (members d w) w in
  roomId c = d
  ∧ conns w' = conns w
  ∧ timers w' = timers w
  ∧ members d w' = members d w
  ∧ (∀ r', value_eqb d r' = false → room_of r' w' = room_of r' w)
  ∧ (t = "draw"%string →
       let r := addOperation (log_of d w)
                  (VObj [("type", VStr "draw"); ("userId", VNull);
                         ("data", field data "data")])
                  (clock w) (generateOperationId (clock w) rnd) in
       is_Some (room_of d w')
       ∧ log_of d w' = r.2
       ∧ outbox w' = outbox w ++
           others (JSON_stringify
             (VObj [("type", VStr "draw"); ("operation", r.1)])))
  ∧ (t = "cursor"%string →
       rooms w' = rooms w ∧ heap w' = heap w
       ∧ outbox w' = outbox w ++
           others (JSON_stringify
             (VObj [("type", VStr "cursor"); ("userId", VNull);
                    ("cursor", field data "cursor")])))
  ∧ (t = "undo"%string →
       let r := undo (log_of d w) in
       is_Some (room_of d w')
       ∧ log_of d w' = r.2
       ∧ outbox w' = outbox w ++
           if JS.truthy r.1
           then everyone (JSON_stringify (history_event "undo" r.1 r.2))
           else [])
  ∧ (t = "redo"%string →
       let r := redo (log_of d w) in
       is_Some (room_of d w')
       ∧ log_of d w' = r.2
       ∧ outbox w' = outbox w ++
           if JS.truthy r.1
           then everyone (JSON_stringify (history_event "redo" r.1 r.2))
           else [])
  ∧ (t = "clear"%string →
       is_Some (room_of d w')
       ∧ log_of d w' = clear (log_of d w)
       ∧ outbox w' = outbox w ++
           everyone (JSON_stringify (VObj [("type", VStr "clear")]))).
Proof.
  intros w Hc Hopen Hu Hdata Htype Ht.
  destruct (run_unjoined JSON_parse JSON_stringify es ws c Hc Hu)
    as [Hun Hnull].
  destruct (run_ok JSON_parse JSON_stringify es) as (Hok & _ & _).
  split; [by destruct Hun|].
  by apply (unjoined_intent_effect w ws c message rnd data t).
Qed.

End Unjoined.

(** * The claims on concrete traffic *)

Lemma append_at_capacity_witness :
  JS.len (operations full_log) = 1000
  ∧ (addOperation full_log (VObj [("type", VStr "draw")]) 7 "op_7_z").1
    = VObj (stamp (VObj [("type", VStr "draw")]) 7 "op_7_z").
Proof.
  split; [by vm_compute|].
  refine (proj2 (proj2 (proj2 (proj2 (proj2 (proj2
    (append_at_capacity full_log (VObj [("type", VStr "draw")]) 7 "op_7_z"
       _ _ _))))))); by vm_compute.
Defined.

(** The scenario of three appends, an undo and a fourth append. *)
Example three_undo_append :
  let op d := stamp (VObj [("type", VStr "draw")]) d in
  let s4 :=
    (addOperation sample_log (VObj [("type", VStr "draw")]) 4 "op_4_d").2 in
  currentIndex sample_log = 1
  ∧ getActiveOperations sample_log = [op 1 "op_1_a"; op 2 "op_2_b"]
  ∧ (redo sample_log).1 = VObj (op 3 "op_3_c")
  ∧ getActiveOperations s4 = [op 1 "op_1_a"; op 2 "op_2_b"; op 4 "op_4_d"]
  ∧ (redo s4).1 = VNull.
Proof. by vm_compute. Qed.

Lemma sample_log_reachable : reachable sample_log.
Proof. eexists. reflexivity. Defined.

Lemma can_agrees_with_outcome_witness :
  canUndo sample_log = true ∧ canRedo sample_log = true
  ∧ JS.present (undo sample_log).1 = true
  ∧ JS.present (redo sample_log).1 = true.
Proof.
  destruct (can_agrees_with_outcome sample_log sample_log_reachable)
    as [[Hu _] [Hr _]].
  split; [by vm_compute|]. split; [by vm_compute|].
  split; [apply Hu|apply Hr]; by vm_compute.
Defined.

Lemma undo_then_redo_witness :
  0 <= currentIndex sample_log
  ∧ (redo (undo sample_log).2).2 = sample_log.
Proof.
  split; [by vm_compute|].
  refine (proj1 (proj2
    (undo_then_redo sample_log sample_log_reachable _))).
  by vm_compute.
Defined.

Lemma append_discards_redo_tail_witness :
  canRedo sample_log = true
  ∧ canRedo
      (addOperation sample_log (VObj [("type", VStr "draw")]) 4 "op_4_d").2
    = false.
Proof.
  split; [by vm_compute|].
  refine (proj1 (proj2
    (append_discards_redo_tail sample_log (VObj [("type", VStr "draw")]) 4
       "op_4_d" sample_log_reachable _))).
  by vm_compute.
Defined.

Lemma decode_failure_is_local_witness :
  sample_parse "{oops" = None
  ∧ rooms (step sample_parse sample_stringify lobby
             (Message 1%nat "{oops" "")) = rooms lobby
  ∧ ready_state 1%nat (step sample_parse sample_stringify lobby
                         (Message 1%nat "{oops" "")) = 1.
Proof.
  split; [by vm_compute|].
  destruct (decode_failure_is_local sample_parse sample_stringify lobby
              1%nat (mkConn 1 VNull (VStr "default")) "{oops" "")
    as (_ & Hrooms & _ & _ & _ & Hopen);
    [by vm_compute|by vm_compute|by vm_compute|].
  split; [exact Hrooms|exact Hopen].
Defined.

(** C1 as stated fails: socket 1 has processed no join, and its draw
    intent appends an operation to the log of room 'default', moves the
    cursor and is broadcast to the participant on socket 2; with no room at
    all, the draw intent creates room 'default'. *)
Lemma unjoined_draw_takes_effect :
  let d := VStr "default" in
  let w' := step sample_parse sample_stringify lobby
              (Message 1%nat draw_text "k3j5x9q2a") in
  conn_of 1%nat lobby = Some (mkConn 1 VNull d)
  ∧ operations (log_of d lobby) = []
  ∧ currentIndex (log_of d lobby) = -1
  ∧ length (operations (log_of d w')) = 1%nat
  ∧ currentIndex (log_of d w') = 0
  ∧ length (outbox w') = S (length (outbox lobby))
  ∧ rooms (sample_run initial_world [Connection 1%nat]) = []
  ∧ rooms (sample_run initial_world
             [Connection 1%nat; Message 1%nat draw_text "k3j5x9q2a"])
    = [(d, 0%nat)].
Proof. by vm_compute. Qed.

Lemma unjoined_intent_is_handled_witness :
  let d := VStr "default" in
  let w' := step sample_parse sample_stringify lobby
              (Message 1%nat draw_text "k3j5x9q2a") in
  conn_of 1%nat lobby = Some (mkConn 1 VNull d)
  ∧ conns w' = conns lobby
  ∧ timers w' = timers lobby
  ∧ members d w' = members d lobby.
Proof.
  cbv zeta. split; [by vm_compute|].
  destruct (unjoined_intent_is_handled sample_parse sample_stringify
              [Connection 1%nat; Connection 2%nat;
               Message 2%nat join_default "r0"]
              1%nat (mkConn 1 VNull (VStr "default")) draw_text "k3j5x9q2a"
              (value_of [("type", "draw"); ("data", "stroke")]%string)
              "draw")
    as (_ & Hc & Ht & Hm & _);
    [by vm_compute|by vm_compute|done|by vm_compute|by vm_compute
    |apply list_elem_of_here|].
  split_and!; [exact Hc|exact Ht|exact Hm].
Defined.


(** The earlier of the two timers acts on the later emptying: the room
    emptied at 240 s is deleted at 300 s, and the join at 360 s gets a new
    Room with an empty log. *)
Example stale_timer_reclaims_early :
  let w :=
    sample_run initial_world
      [Connection 1%nat; Message 1%nat (join_a "u1") "r0";
       Message 1%nat draw_text "k3j5x9q2a"; Close 1%nat;
       Elapse 60000;
       Connection 2%nat; Message 2%nat (join_a "u2") "r1";
       Elapse 180000; Close 2%nat;
       Elapse 60000] in
  let w' :=
    sample_run w
      [Elapse 60000; Connection 3%nat; Message 3%nat (join_a "u3") "r2"] in
  clock w = 300000
  ∧ rooms w = []
  ∧ rooms w' = [(VStr "a", 1%nat)]
  ∧ operations (log_of (VStr "a") w') = [].
Proof. by vm_compute. Qed.


(** * Further properties of the operation log *)

(** X1: whatever calls are made on a fresh log, the history never holds
    more than 1000 entries and the cap stays the constructor's 1000. *)
Theorem history_within_cap (cs : list LogCall) :
  let s := run_calls new_DrawingState cs in
  JS.len (operations s) <= 1000 ∧ maxOperations s = 1000.
Proof.
  cbv zeta.
  destruct (log_inv_calls cs new_DrawingState log_inv_new) as (_ & Hm & Hl).
  by split.
Qed.

Lemma undo_cleared s : undo (clear s) = (VNull, clear s).
Proof. done. Qed.

Lemma redo_cleared s : redo (clear s) = (VNull, clear s).
Proof. done. Qed.

(** X2: [clear()] cannot be undone: after it, whatever [undo()] and
    [redo()] calls follow, the log stays empty, each of them returns null
    and both predicates are false. *)
Theorem clear_is_final (s : DrawingState) (cs : list LogCall) :
  forallb is_move cs = true →
  let s' := run_calls (clear s) cs in
  s' = clear s
  ∧ getActiveOperations s' = []
  ∧ canUndo s' = false ∧ canRedo s' = false
  ∧ (undo s').1 = VNull ∧ (redo s').1 = VNull.
Proof.
  intros Hcs. cbv zeta.
  assert (Hsame : run_calls (clear s) cs = clear s).
  { unfold run_calls. induction cs as [|c cs IH]; [done|].
    cbn [forallb] in Hcs. apply andb_prop in Hcs as [Hc Hcs].
    destruct c; try done; cbn [foldl run_call].
    - rewrite undo_cleared. by apply IH.
    - rewrite redo_cleared. by apply IH. }
  rewrite Hsame. by rewrite undo_cleared, redo_cleared.
Qed.

(** X3: in a reachable log state where redo is available, [redo()]
    followed at once by [undo()] gives back the state, and both calls
    return the same operation, the entry just after the cursor. *)
Theorem redo_then_undo (s : DrawingState) :
  reachable s → canRedo s = true →
  let r := redo s in
  let u := undo r.2 in
  u.2 = s
  ∧ u.1 = r.1
  ∧ JS.present r.1 = true
  ∧ r.1 = at_index (operations s) (currentIndex s + 1).
Proof.
  intros Hs Hcan. apply reachable_inv in Hs. destruct Hs as (Hi & _ & _).
  unfold canRedo in Hcan. apply Z.ltb_lt in Hcan.
  destruct s as [ops idx cap]. cbn in *.
  unfold redo, undo. cbn.
  destruct (Z.geb_spec idx (JS.len ops - 1)) as [?|_]; [lia|]. cbn.
  destruct (Z.ltb_spec (idx + 1) 0) as [?|_]; [lia|]. cbn.
  replace (idx + 1 - 1) with idx by lia.
  destruct (index_in_range ops (idx + 1)) as [o Ho]; [lia|].
  unfold at_index. rewrite Ho. done.
Qed.

Lemma take_next {A} (l : list A) (i : Z) (x : A) :
  0 <= i → JS.index l i = Some x →
  take (Z.to_nat (i + 1)) l = take (Z.to_nat i) l ++ [x].
Proof.
  intros Hi Hx. unfold JS.index in Hx.
  destruct (Z.ltb_spec i 0) as [?|_]; [lia|].
  replace (Z.to_nat (i + 1)) with (S (Z.to_nat i)) by lia.
  by apply take_S_r.
Qed.

(** X4: where undo is available, [undo()] takes exactly the last operation
    off the active ones and returns it. *)
Theorem undo_takes_last_active (s : DrawingState) :
  reachable s → canUndo s = true →
  ∃ o, (undo s).1 = VObj o
       ∧ getActiveOperations s = getActiveOperations (undo s).2 ++ [o].
Proof.
  intros Hs Hcan. apply reachable_inv in Hs. destruct Hs as (Hi & _ & _).
  unfold canUndo in Hcan. rewrite Z.geb_leb in Hcan. apply Z.leb_le in Hcan.
  destruct (index_in_range (operations s) (currentIndex s)) as [o Ho]; [lia|].
  exists o. unfold undo, getActiveOperations.
  destruct (Z.ltb_spec (currentIndex s) 0) as [?|_]; [lia|]. cbn.
  unfold at_index. rewrite Ho. split; [done|].
  rewrite !slice_prefix by lia.
  replace (currentIndex s - 1 + 1) with (currentIndex s) by lia.
  by apply take_next.
Qed.

(** X5: where redo is available, [redo()] puts exactly the operation it
    returns back at the end of the active ones. *)
Theorem redo_adds_next_active (s : DrawingState) :
  reachable s → canRedo s = true →
  ∃ o, (redo s).1 = VObj o
       ∧ getActiveOperations (redo s).2 = getActiveOperations s ++ [o].
Proof.
  intros Hs Hcan. apply reachable_inv in Hs. destruct Hs as (Hi & _ & _).
  unfold canRedo in Hcan. apply Z.ltb_lt in Hcan.
  destruct (index_in_range (operations s) (currentIndex s + 1)) as [o Ho];
    [lia|].
  exists o. unfold redo, getActiveOperations.
  destruct (Z.geb_spec (currentIndex s) (JS.len (operations s) - 1))
    as [?|_]; [lia|]. cbn.
  unfold at_index. rewrite Ho. split; [done|].
  rewrite !slice_prefix by lia.
  by apply take_next; [lia|].
Qed.

Lemma addOperation_stored (s : DrawingState) (operation : value)
    (now : Z) (opid : string) :
  log_inv s →
  let r := addOperation s operation now opid in
  let st := stamp operation now opid in
  r.1 = VObj st
  ∧ getActiveOperations r.2 =
      (if JS.len (getActiveOperations s) =? 1000
       then tail (getActiveOperations s ++ [st])
       else getActiveOperations s ++ [st])
  ∧ operations r.2 = getActiveOperations r.2
  ∧ last (getActiveOperations r.2) = Some st
  ∧ canUndo r.2 = true ∧ canRedo r.2 = false.
Proof.
  intros Hs. cbv zeta.
  pose proof (add_reaches_top s operation now opid Hs) as Htop.
  pose proof (log_inv_add s operation now opid Hs) as Hinv'.
  cbv zeta in Htop. destruct Hs as (Hi & Hm & Hl).
  pose proof (active_length s Hi) as Hk.
  pose proof (active_at_top _ Htop) as Hact.
  pose proof (addOperation_in_range s operation now opid Hi) as Hadd.
  cbv zeta in Hadd. rewrite Hact. rewrite Hadd in *. clear Hadd.
  set (st := stamp operation now opid) in *.
  set (kept := getActiveOperations s) in *.
  rewrite Hm in *.
  destruct (Z.gtb_spec (JS.len kept + 1) 1000) as [Hfull|Hroom];
    cbn [fst snd operations currentIndex] in *.
  - assert (Hlen : JS.len kept = 1000) by lia.
    destruct (Z.eqb_spec (JS.len kept) 1000) as [_|?]; [|lia].
    destruct kept as [|o kept'] eqn:Hkept.
    { unfold JS.len in Hlen. cbn in Hlen. lia. }
    cbn [app tail] in *.
    assert (Hlast : JS.index (kept' ++ [st]) (currentIndex s) = Some st).
    { replace (currentIndex s) with (JS.len kept').
      - apply index_last.
      - unfold JS.len in *. cbn in Hlen. lia. }
    unfold at_index. rewrite Hlast.
    split_and!; try done.
    + by rewrite last_snoc.
    + unfold canUndo. cbn. rewrite Z.geb_leb. apply Z.leb_le. lia.
    + unfold canRedo. cbn. apply Z.ltb_ge. cbn in Htop. lia.
  - destruct (Z.eqb_spec (JS.len kept) 1000) as [?|_]; [lia|].
    split_and!; try done.
    + by rewrite last_snoc.
    + unfold canUndo. cbn. rewrite Z.geb_leb. apply Z.leb_le. lia.
    + unfold canRedo. cbn. apply Z.ltb_ge. cbn in Htop. lia.
Qed.

(** X6: in a reachable log state [addOperation] always returns the
    operation it stored; the active operations become the previous ones
    (without the oldest when that makes 1001) followed by the new one, the
    redo tail being dropped; afterwards undo is available and redo is
    not. *)
Theorem addOperation_returns_stored (s : DrawingState) (operation : value)
    (now : Z) (opid : string) :
  reachable s →
  let r := addOperation s operation now opid in
  let st := stamp operation now opid in
  r.1 = VObj st
  ∧ getActiveOperations r.2 =
      (if JS.len (getActiveOperations s) =? 1000
       then tail (getActiveOperations s ++ [st])
       else getActiveOperations s ++ [st])
  ∧ operations r.2 = getActiveOperations r.2
  ∧ last (getActiveOperations r.2) = Some st
  ∧ canUndo r.2 = true ∧ canRedo r.2 = false.
Proof.
  intros Hs. apply reachable_inv in Hs.
  exact (addOperation_stored s operation now opid Hs).
Qed.

Lemma get_set_eq k v o : JS.get k (JS.set k v o) = v.
Proof.
  induction o as [|[k' v'] o IH]; cbn.
  - by rewrite String.eqb_refl.
  - destruct (String.eqb_spec k' k) as [->|Hne]; cbn.
    + by rewrite String.eqb_refl.
    + destruct (String.eqb_spec k' k); [done|]. exact IH.
Qed.

Lemma get_set_ne k k' v o :
  k ≠ k' → JS.get k' (JS.set k v o) = JS.get k' o.
Proof.
  intros Hne. induction o as [|[k0 v0] o IH]; cbn.
  - destruct (String.eqb_spec k k'); done.
  - destruct (String.eqb_spec k0 k) as [->|Hk0]; cbn.
    + destruct (String.eqb_spec k k'); done.
    + destruct (String.eqb_spec k0 k'); [done|]. exact IH.
Qed.

(** X7: a stored operation carries the id and the timestamp the server
    made, whatever the draft said under those names, and every other
    property of the draft as it was. *)
Theorem stamp_fields (operation : value) (now : Z) (opid k : string) :
  JS.get k (stamp operation now opid) =
    if String.eqb k "id" then VStr opid
    else if String.eqb k "timestamp" then VNum now
    else JS.get k (JS.spread operation).
Proof.
  unfold stamp.
  destruct (String.eqb_spec k "id") as [->|Hid].
  - apply get_set_eq.
  - rewrite get_set_ne by done.
    destruct (String.eqb_spec k "timestamp") as [->|Hts].
    + apply get_set_eq.
    + by rewrite get_set_ne.
Qed.

(** X8: what [getFullState()] hands to a new client is consistent: its
    [operations] are the entries up to the cursor, [currentIndex + 1] of
    them, so [currentIndex] is the index of the last one (or -1 for none). *)
Theorem snapshot_consistent (cs : list LogCall) :
  let s := run_calls new_DrawingState cs in
  ∃ ops,
    getFullState s =
      VObj [("operations", VArr (VObj <$> ops));
            ("currentIndex", VNum (currentIndex s))]
    ∧ ops = take (Z.to_nat (currentIndex s + 1)) (operations s)
    ∧ JS.len ops = currentIndex s + 1.
Proof.
  cbv zeta.
  destruct (log_inv_calls cs new_DrawingState log_inv_new) as (Hi & _ & _).
  eexists. split; [reflexivity|].
  split; [apply slice_prefix; lia|by apply active_length].
Qed.

Lemma stamp_is_stamped operation now opid :
  is_stamped (stamp operation now opid) = true.
Proof.
  unfold is_stamped, stamp. rewrite get_set_eq.
  rewrite get_set_ne by done. by rewrite get_set_eq.
Qed.

Lemma Forall_slice {A} (P : A → Prop) (l : list A) (i j : Z) :
  Forall P l → Forall P (JS.slice l i j).
Proof.
  intros Hl. unfold JS.slice. by apply Forall_take, Forall_drop.
Qed.

Lemma Forall_tail {A} (P : A → Prop) (l : list A) :
  Forall P l → Forall P (tail l).
Proof. destruct l; [done|]. by intros [_ ?]%Forall_cons. Qed.

(** X26: every entry of the history, after any calls on a fresh log, has a
    string [id] and a numeric [timestamp]; so has every active
    operation. *)
Theorem entries_are_stamped (cs : list LogCall) :
  let s := run_calls new_DrawingState cs in
  forallb is_stamped (operations s) = true
  ∧ forallb is_stamped (getActiveOperations s) = true.
Proof.
  cbv zeta.
  assert (H : Forall (λ o, is_stamped o = true)
                (operations (run_calls new_DrawingState cs))).
  { unfold run_calls.
    assert (H0 : Forall (λ o, is_stamped o = true)
                   (operations new_DrawingState)) by constructor.
    revert H0. generalize new_DrawingState.
    induction cs as [|c cs IH]; intros s Hs; [done|].
    cbn [foldl]. apply IH.
    destruct c as [operation now opid| | |]; cbn [run_call].
    - unfold addOperation, JS.push, JS.shift. cbn [snd].
      assert (Hpush : Forall (λ o, is_stamped o = true)
                (JS.slice (operations s) 0 (currentIndex s + 1)
                 ++ [stamp operation now opid])).
      { apply Forall_app. split; [by apply Forall_slice|].
        apply Forall_singleton, stamp_is_stamped. }
      destruct (_ >? _); cbn; [by apply Forall_tail|done].
    - unfold undo. by destruct (_ <? _).
    - unfold redo. by destruct (_ >=? _).
    - constructor. }
  split.
  - apply forallb_forall. intros o Ho.
    rewrite Forall_forall in H. apply H. by apply list_elem_of_In.
  - apply forallb_forall. intros o Ho.
    apply (Forall_slice _ _ 0
             (currentIndex (run_calls new_DrawingState cs) + 1)) in H.
    rewrite Forall_forall in H. apply H. by apply list_elem_of_In.
Qed.

(** * Further properties of the registry and the handlers *)

(** ** Keys *)

Lemma value_eqb_refl : ∀ a, value_eqb a a = true.
Proof.
  fix IH 1. intros [| |b|n|s|xs|fs]; cbn; try done.
  - by destruct b.
  - apply Z.eqb_refl.
  - apply String.eqb_refl.
  - induction xs as [|x xs IHxs]; [done|].
    rewrite (IH x). exact IHxs.
  - induction fs as [|[k x] fs IHfs]; [done|].
    rewrite String.eqb_refl, (IH x). exact IHfs.
Qed.

Lemma fst_unique {A B} (m : list (A * B)) k l1 l2 :
  NoDup m.*1 → (k, l1) ∈ m → (k, l2) ∈ m → l1 = l2.
Proof.
  induction m as [|[k0 x] m IH]; cbn; intros Hnd H1 H2.
  - by apply elem_of_nil in H1.
  - apply NoDup_cons in Hnd as [Hx Hnd].
    apply elem_of_cons in H1 as [H1|H1]; apply elem_of_cons in H2 as [H2|H2];
      simplify_eq; try done.
    + exfalso. apply Hx. apply list_elem_of_fmap. by exists (k0, l2).
    + exfalso. apply Hx. apply list_elem_of_fmap. by exists (k0, l1).
    + by apply IH.
Qed.

Section KeyFacts.
Context {V : Type}.
Implicit Types m : list (value * V).

Lemma get_none_not_key m k : JSMap.get k m = None → k ∉ m.*1.
Proof.
  induction m as [|[k' v'] m IH]; cbn; intros Hg Hin.
  - by apply elem_of_nil in Hin.
  - destruct (value_eqb k' k) eqn:Hk; [done|].
    apply elem_of_cons in Hin as [->|Hin]; [|by apply IH].
    by rewrite value_eqb_refl in Hk.
Qed.

Lemma keys_set m k v :
  (JSMap.set k v m).*1 =
    if JSMap.has k m then m.*1 else m.*1 ++ [k].
Proof.
  unfold JSMap.has. induction m as [|[k' v'] m IH]; cbn; [done|].
  destruct (value_eqb k' k); cbn; [done|].
  rewrite IH. by destruct (JSMap.get k m).
Qed.

Lemma NoDup_keys_set m k v : NoDup m.*1 → NoDup (JSMap.set k v m).*1.
Proof.
  intros Hnd. rewrite keys_set. unfold JSMap.has.
  destruct (JSMap.get k m) eqn:Hg; [done|].
  apply NoDup_app. split_and!; [done| |apply NoDup_singleton].
  intros x Hx ->%list_elem_of_singleton.
  by apply (get_none_not_key m k).
Qed.

Lemma NoDup_keys_delete m k : NoDup m.*1 → NoDup (JSMap.delete k m).*1.
Proof.
  intros Hnd. eapply sublist_NoDup; [exact Hnd|].
  apply fmap_sublist, delete_sublist.
Qed.

Lemma get_key_elem m k v : JSMap.get k m = Some v → ∃ k', (k', v) ∈ m
  ∧ value_eqb k' k = true.
Proof. apply get_elem. Qed.

Lemma get_set_str_same m u v :
  JSMap.get (VStr u) (JSMap.set (VStr u) v m) = Some v.
Proof.
  induction m as [|[k' v'] m IH]; cbn.
  - by rewrite String.eqb_refl.
  - destruct (value_eqb k' (VStr u)) eqn:Hk; cbn; rewrite Hk; [done|].
    exact IH.
Qed.

Lemma get_set_str_other m u k v :
  value_eqb (VStr u) k = false →
  JSMap.get k (JSMap.set (VStr u) v m) = JSMap.get k m.
Proof.
  intros Hne. induction m as [|[k' v'] m IH]; cbn.
  - change (value_eqb (VStr u) k) with
      (match k with VStr y => String.eqb u y | _ => false end) in Hne.
    by rewrite Hne.
  - destruct (value_eqb k' (VStr u)) eqn:Hk; cbn.
    + apply eqb_str_l in Hk as ->. by rewrite Hne.
    + destruct (value_eqb k' k); [done|]. exact IH.
Qed.

Lemma get_delete_str_same m u :
  NoDup m.*1 → JSMap.get (VStr u) (JSMap.delete (VStr u) m) = None.
Proof.
  induction m as [|[k' v'] m IH]; cbn; intros Hnd; [done|].
  apply NoDup_cons in Hnd as [Hk' Hnd].
  destruct (value_eqb k' (VStr u)) eqn:Hk; cbn.
  - apply eqb_str_l in Hk as ->.
    destruct (JSMap.get (VStr u) m) as [v|] eqn:Hg; [|done].
    apply get_elem in Hg as (k & Hin & Hku). apply eqb_str_l in Hku as ->.
    exfalso. apply Hk'. apply list_elem_of_fmap. by exists (VStr u, v).
  - rewrite Hk. by apply IH.
Qed.

Lemma get_delete_str_other m u k :
  value_eqb (VStr u) k = false →
  JSMap.get k (JSMap.delete (VStr u) m) = JSMap.get k m.
Proof.
  intros Hne. induction m as [|[k' v'] m IH]; cbn; [done|].
  destruct (value_eqb k' (VStr u)) eqn:Hk; cbn.
  - apply eqb_str_l in Hk as ->. by rewrite Hne.
  - destruct (value_eqb k' k); [done|]. exact IH.
Qed.

End KeyFacts.

(** ** A second invariant: unique ids and well-formed logs *)

Lemma store_ok_initial : store_ok initial_world.
Proof.
  split; [constructor|]. intros l room H. by destruct l.
Qed.

Lemma so_update_room l f w :
  (∀ room,
     NoDup (users room).*1 ∧ log_inv (drawingState room) →
     NoDup (users (f room)).*1 ∧ log_inv (drawingState (f room))) →
  store_ok w → store_ok (set_heap (alter f l) w).
Proof.
  intros Hf [Hnd Hrooms]. split; [done|].
  intros l' room. cbn [set_heap heap].
  destruct (decide (l = l')) as [<-|Hne].
  - rewrite list_lookup_alter_eq.
    destruct (heap w !! l) as [room0|] eqn:Hl; [|done].
    intros [= <-]. apply Hf. by eapply Hrooms.
  - rewrite list_lookup_alter_ne by done. apply Hrooms.
Qed.

Lemma so_getRoom r : preserves store_ok (getRoom r).
Proof.
  intros w [Hnd Hrooms]. unfold getRoom.
  destruct (JSMap.get r (rooms w)) as [l|] eqn:Hg; [done|].
  cbn [snd]. split.
  - cbn [set_rooms set_heap rooms]. by apply NoDup_keys_set.
  - intros l room. cbn [set_rooms set_heap heap].
    intros [[_ Hl]|[_ <-]]%lookup_snoc_Some; [by eapply Hrooms|].
    split; [constructor|apply log_inv_new].
Qed.

Lemma so_delete_room r w :
  store_ok w → store_ok (set_rooms (JSMap.delete r) w).
Proof.
  intros [Hnd Hrooms]. split; [|done].
  cbn [set_rooms rooms]. by apply NoDup_keys_delete.
Qed.

Lemma so_addUser roomId userId ws name color :
  preserves store_ok (addUser roomId userId ws name color).
Proof.
  unfold addUser.
  apply preserves_bind; [apply so_getRoom|]. intros l.
  apply preserves_bind; [by intros w Hw|]. intros room.
  apply preserves_bind; [by intros w Hw|]. intros now.
  apply preserves_bind; [|intros; apply preserves_ret].
  apply preserves_modify. intros w. apply so_update_room.
  intros room' [Hnd Hlog]. cbn [set_users users drawingState].
  split; [by apply NoDup_keys_set|done].
Qed.

Lemma so_reclaim r : preserves store_ok (reclaim r).
Proof.
  unfold reclaim. apply preserves_bind; [apply preserves_gets|].
  intros [l|]; [|apply preserves_ret].
  apply preserves_bind; [by intros w Hw|]. intros room.
  destruct (JSMap.size (users room) =? 0); [|apply preserves_ret].
  apply preserves_modify. intros w. apply so_delete_room.
Qed.

Lemma so_removeUser r u : preserves store_ok (removeUser r u).
Proof.
  unfold removeUser. apply preserves_bind; [apply preserves_gets|].
  intros [l|]; [|apply preserves_ret].
  apply preserves_bind.
  { apply preserves_modify. intros w. apply so_update_room.
    intros room [Hnd Hlog]. cbn [set_users users drawingState].
    split; [by apply NoDup_keys_delete|done]. }
  intros _. apply preserves_bind; [by intros w Hw|]. intros room.
  destruct (JSMap.size (users room) =? 0); [|apply preserves_ret].
  unfold setTimeout. apply preserves_bind; [apply preserves_gets|].
  intros now. by intros w Hw.
Qed.

Lemma so_updateUserCursor r u cursor :
  preserves store_ok (updateUserCursor r u cursor).
Proof.
  unfold updateUserCursor. apply preserves_bind; [apply preserves_gets|].
  intros [l|]; [|apply preserves_ret].
  apply preserves_bind; [by intros w Hw|]. intros room.
  destruct (JSMap.get u (users room)) as [user|]; [|apply preserves_ret].
  apply preserves_modify. intros w. apply so_update_room.
  intros room' [Hnd Hlog]. cbn [set_users users drawingState].
  split; [by apply NoDup_keys_set|done].
Qed.

Lemma so_on_log l f :
  (∀ ds, log_inv ds → log_inv (f ds).2) → preserves store_ok (on_log l f).
Proof.
  intros Hf w Hw. unfold on_log. rewrite !bind_eq.
  unfold read_room, room_at, update_room. cbn [gets modify ret fst snd].
  destruct Hw as [Hnd Hrooms]. split; [done|].
  intros l' room. cbn [set_heap heap].
  destruct (decide (l = l')) as [<-|Hne].
  - rewrite list_lookup_alter_eq.
    destruct (heap w !! l) as [room0|] eqn:Hl; [|done].
    cbn. intros [= <-]. cbn [set_drawingState users drawingState].
    destruct (Hrooms l room0 Hl) as [Hu Hlog]. split; [done|by apply Hf].
  - rewrite list_lookup_alter_ne by done. apply Hrooms.
Qed.

Section StoreKept.
Variable JSON_parse : string → option value.
Variable JSON_stringify : value → string.

Lemma so_broadcast r sender message :
  preserves store_ok (broadcast JSON_stringify r sender message).
Proof. intros w Hw. by rewrite broadcast_spec. Qed.

Lemma so_broadcastAll r message :
  preserves store_ok (broadcastAll JSON_stringify r message).
Proof. intros w Hw. by rewrite broadcastAll_spec. Qed.

Lemma so_handleJoin ws c data rnd :
  preserves store_ok (handleJoin JSON_stringify ws c data rnd).
Proof.
  unfold handleJoin.
  apply preserves_bind; [by intros w Hw|]. intros now.
  apply preserves_bind; [by intros w Hw|]. intros _.
  apply preserves_bind; [apply so_addUser|]. intros user.
  apply preserves_bind; [apply so_getRoom|]. intros l.
  apply preserves_bind; [intros w Hw; by rewrite getRoomUsers_pure|].
  intros roster1.
  apply preserves_bind; [by intros w Hw|]. intros room.
  apply preserves_bind; [by intros w Hw|]. intros _.
  apply preserves_bind; [intros w Hw; by rewrite getRoomUsers_pure|].
  intros roster2. apply so_broadcast.
Qed.

Lemma so_handleDraw c data rnd :
  preserves store_ok (handleDraw JSON_stringify c data rnd).
Proof.
  unfold handleDraw.
  apply preserves_bind; [apply so_getRoom|]. intros l.
  apply preserves_bind; [by intros w Hw|]. intros now.
  apply preserves_bind; [|intros; apply so_broadcast].
  apply so_on_log. intros ds Hds. by apply log_inv_add.
Qed.

Lemma so_handleCursor c data :
  preserves store_ok (handleCursor JSON_stringify c data).
Proof.
  unfold handleCursor.
  apply preserves_bind; [apply so_updateUserCursor|]. intros _.
  apply so_broadcast.
Qed.

Lemma so_handleUndo c data :
  preserves store_ok (handleUndo JSON_stringify c data).
Proof.
  unfold handleUndo.
  apply preserves_bind; [apply so_getRoom|]. intros l.
  apply preserves_bind; [apply so_on_log, log_inv_undo|]. intros operation.
  destruct (JS.truthy operation); [|apply preserves_ret].
  apply preserves_bind; [by intros w Hw|]. intros room.
  apply so_broadcastAll.
Qed.

Lemma so_handleRedo c data :
  preserves store_ok (handleRedo JSON_stringify c data).
Proof.
  unfold handleRedo.
  apply preserves_bind; [apply so_getRoom|]. intros l.
  apply preserves_bind; [apply so_on_log, log_inv_redo|]. intros operation.
  destruct (JS.truthy operation); [|apply preserves_ret].
  apply preserves_bind; [by intros w Hw|]. intros room.
  apply so_broadcastAll.
Qed.

Lemma so_handleClear c data :
  preserves store_ok (handleClear JSON_stringify c data).
Proof.
  unfold handleClear.
  apply preserves_bind; [apply so_getRoom|]. intros l.
  apply preserves_bind; [|intros; apply so_broadcastAll].
  apply preserves_modify. intros w. apply so_update_room.
  intros room [Hnd Hlog]. cbn [set_drawingState users drawingState].
  split; [done|by apply log_inv_clear].
Qed.

Lemma so_on_message ws c message rnd :
  preserves store_ok (on_message JSON_parse JSON_stringify ws c message rnd).
Proof.
  intros w Hw. unfold on_message, try_message.
  destruct (JSON_parse message) as [data|]; [|done].
  destruct (JS.prop data "type") as [type|]; [|done].
  unfold dispatch. destruct type; try done.
  repeat match goal with
         | |- context [if ?b then _ else _] => destruct b
         end.
  - by apply so_handleJoin.
  - by apply so_handleDraw.
  - by apply so_handleCursor.
  - by apply so_handleUndo.
  - by apply so_handleRedo.
  - by apply so_handleClear.
  - done.
Qed.

Lemma so_on_close c : preserves store_ok (on_close JSON_stringify c).
Proof.
  unfold on_close.
  destruct (JS.truthy (userId c) && JS.truthy (roomId c));
    [|apply preserves_ret].
  apply preserves_bind; [apply so_removeUser|]. intros _.
  apply preserves_bind; [intros w Hw; by rewrite getRoomUsers_pure|].
  intros roster1. apply so_broadcast.
Qed.

Lemma so_step w e :
  store_ok w → store_ok (step JSON_parse JSON_stringify w e).
Proof.
  intros Hw. destruct e as [ws|ws message rnd|ws|ms]; cbn [step].
  - by destruct (conn_of ws w).
  - destruct (conn_of ws w) as [c|]; [|done].
    destruct (readyState c =? 1); [|done]. by apply so_on_message.
  - destruct (conn_of ws w) as [c|] eqn:Hc; [|done].
    destruct (readyState c =? 3); [done|]. by apply so_on_close.
  - unfold run_timers.
    apply preserves_bind; [apply preserves_gets| |done]. intros now.
    apply preserves_bind; [apply preserves_gets|]. intros ts.
    apply preserves_bind; [by intros w' Hw'|]. intros _.
    apply preserves_for_each. intros t. apply so_reclaim.
Qed.

(** In every world the server gets into, no room id and no participant id
    is registered twice and every room's log has its cursor in range. *)
Lemma run_store_ok es :
  store_ok (run JSON_parse JSON_stringify initial_world es).
Proof.
  unfold run. generalize store_ok_initial. generalize initial_world.
  induction es as [|e es IH]; intros w Hw; [done|].
  apply IH. by apply so_step.
Qed.

End StoreKept.

(** ** Messages that are not intents *)

Section Others.
Variable JSON_parse : string → option value.
Variable JSON_stringify : value → string.

(** X9: a message that decodes but whose [type] is none of the six intents
    (an unknown string, a non-string, or missing as in a JSON number, string
    or array) is ignored: nothing is sent and nothing changes. *)
Theorem unknown_type_is_ignored (w : World) (ws : WS)
    (message rnd : string) (data type : value) :
  JSON_parse message = Some data → JS.prop data "type" = Some type →
  (∀ t, type = VStr t →
        t ∉ ["join"; "draw"; "cursor"; "undo"; "redo"; "clear"]%string) →
  step JSON_parse JSON_stringify w (Message ws message rnd) = w.
Proof.
  intros Hdata Htype Hnot. cbn [step].
  destruct (conn_of ws w) as [c|]; [|done].
  destruct (readyState c =? 1); [|done].
  unfold on_message, try_message. rewrite Hdata, Htype.
  unfold dispatch. destruct type as [| |b|n|t|xs|fs]; try done.
  specialize (Hnot t eq_refl).
  repeat match goal with
         | |- context [String.eqb t ?k] =>
             destruct (String.eqb_spec t k) as [->|?];
             [exfalso; apply Hnot;
              repeat first [apply list_elem_of_here
                           |apply list_elem_of_further]|]
         end.
  done.
Qed.

(** X10: the message [null] decodes, but reading [data.type] throws; the
    catch block answers as for a text that does not decode: one [error]
    event to the same socket, nothing else. *)
Theorem null_message_gets_error (w : World) (ws : WS) (c : Conn)
    (message rnd : string) :
  conn_of ws w = Some c → readyState c = 1 →
  JSON_parse message = Some VNull →
  let w' := step JSON_parse JSON_stringify w (Message ws message rnd) in
  outbox w' =
    outbox w ++
    [(ws, JSON_stringify (VObj
            [("type", VStr "error");
             ("message", VStr "Failed to process message")]))]
  ∧ rooms w' = rooms w ∧ heap w' = heap w
  ∧ timers w' = timers w ∧ conns w' = conns w.
Proof.
  intros Hc Hopen Hnull. cbn [step]. rewrite Hc, Hopen. cbn.
  unfold on_message, try_message. rewrite Hnull. done.
Qed.

(** X11: closing a connection that never joined ([userId] still falsy)
    removes nobody, arms no timer and notifies nobody; only the socket's
    state changes. *)
Theorem close_of_unjoined (w : World) (ws : WS) (c : Conn) :
  conn_of ws w = Some c → readyState c ≠ 3 →
  JS.truthy (userId c) = false →
  let w' := step JSON_parse JSON_stringify w (Close ws) in
  rooms w' = rooms w ∧ heap w' = heap w ∧ timers w' = timers w
  ∧ outbox w' = outbox w
  ∧ conn_of ws w' = Some (mkConn 3 (userId c) (roomId c)).
Proof.
  intros Hc Hopen Hu. cbn [step]. rewrite Hc.
  destruct (Z.eqb_spec (readyState c) 3) as [?|_]; [done|].
  unfold on_close. rewrite Hu. cbn [andb ret snd].
  split_and!; try done.
  rewrite conn_of_put. by destruct (decide (ws = ws)).
Qed.



End Others.

(** ** Joining *)

Section Joining.
Variable JSON_parse : string → option value.
Variable JSON_stringify : value → string.

Lemma getRoomUsers_value r w :
  (getRoomUsers r w).1 = roster (members r w).
Proof.
  unfold getRoomUsers, members, room_of, roster. rewrite bind_eq.
  cbn [gets fst snd].
  destruct (JSMap.get r (rooms w)) as [l|]; cbn [mbind option_bind]; [|done].
  rewrite bind_eq. unfold read_room, room_at. cbn [gets ret fst snd].
  by destruct (heap w !! l).
Qed.

(** What [handleJoin] leaves behind when the ids it settles on are
    strings. *)
Lemma handleJoin_spec ws c data rnd w u s :
  rooms_ok w →
  JS.or (field data "userId") (VStr (generateUserId (clock w) rnd)) = VStr u →
  JS.or (field data "roomId") (VStr "default") = VStr s →
  let w' := (handleJoin JSON_stringify ws c data rnd w).2 in
  let n := JSMap.size (members (VStr s) w) in
  let user :=
    mkUser (VStr u) ws
      (JS.or (field data "name") (VStr ("User " +:+ pretty (n + 1))))
      (JS.or (field data "color") (generateUserColor n))
      (clock w) (VObj [("x", VNum 0); ("y", VNum 0)]) in
  conn_of ws w' = Some (mkConn (readyState c) (VStr u) (VStr s))
  ∧ (∀ ws', ws ≠ ws' → conn_of ws' w' = conn_of ws' w)
  ∧ members (VStr s) w' = JSMap.set (VStr u) user (members (VStr s) w)
  ∧ log_of (VStr s) w' = log_of (VStr s) w
  ∧ (∀ r', value_eqb (VStr s) r' = false → room_of r' w' = room_of r' w)
  ∧ timers w' = timers w
  ∧ outbox w' = outbox w ++
      [(ws, JSON_stringify (VObj
         [("type", VStr "init");
          ("userId", VStr u);
          ("user", public_user user);
          ("users", roster (members (VStr s) w'));
          ("drawingState", getFullState (log_of (VStr s) w))]))] ++
      audience (λ k, negb (value_eqb k (VStr u))) (members (VStr s) w') w'
        (JSON_stringify (VObj
           [("type", VStr "user_joined");
            ("user", public_user user);
            ("users", roster (members (VStr s) w'))])).
Proof.
  intros Hok Hu Hs. cbv zeta. unfold handleJoin.
  rewrite !bind_eq. cbn [Date_now gets modify fst snd]. rewrite Hu, Hs.
  set (wa := set_conns (put_conn ws (mkConn (readyState c) (VStr u) (VStr s)))
               w).
  assert (Hoka : rooms_ok wa) by exact Hok.
  unfold addUser. rewrite !bind_eq.
  cbn [Date_now gets ret fst snd read_room].
  match goal with
  | |- context [update_room _ ?f _] =>
      destruct (touch_spec s wa f Hoka)
        as (room & Hrd & Hlog & Hus & Hr & Hfr & Hc & Ht & Ho & Hk & Hok2);
      destruct (getRoom_spec s wa Hoka)
        as (room0 & Hg & _ & _ & _ & _ & _ & _ & _ & Hk0 & _)
  end.
  cbv zeta in *. rewrite Hrd in *. rewrite Hus in *.
  change (members (VStr s) wa) with (members (VStr s) w) in *.
  change (clock wa) with (clock w) in *. rewrite Hk0 in *.
  match goal with
  | H : room_of (VStr s) ?x = _ |- _ => set (w2 := x) in *
  end.
  assert (Hg2 : JSMap.get (VStr s) (rooms w2) = Some (getRoom (VStr s) wa).1)
    by exact Hg.
  rewrite (getRoom_found (VStr s) w2 _ Hg2). cbn [fst snd].
  rewrite !getRoomUsers_pure, !getRoomUsers_value.
  unfold send. cbn [modify fst snd].
  rewrite broadcast_spec. cbn [snd].
  assert (Hm2 : members (VStr s) w2 =
    JSMap.set (VStr u)
      {| user_id := VStr u; user_ws := ws;
         user_name := JS.or (field data "name")
           (VStr ("User " +:+ pretty (JSMap.size (members (VStr s) w) + 1)));
         user_color := JS.or (field data "color")
           (generateUserColor (JSMap.size (members (VStr s) w)));
         joinedAt := clock w;
         user_cursor := VObj [("x", VNum 0); ("y", VNum 0)] |}
      (members (VStr s) w)).
  { unfold members at 1. rewrite Hr. cbn. by rewrite Hus. }
  assert (Hrat : room_at (getRoom (VStr s) wa).1 w2 = room_of (VStr s) w2).
  { unfold room_at, room_of. by rewrite Hg2. }
  rewrite Hrat, Hr. cbn [default from_option id set_users drawingState].
  rewrite Hlog.
  change (log_of (VStr s) wa) with (log_of (VStr s) w).
  split_and!.
  - pose proof (conn_of_put ws ws (mkConn (readyState c) (VStr u) (VStr s)) w)
      as Hput.
    destruct (decide (ws = ws)); [|done].
    unfold conn_of in *. cbn [set_outbox conns]. rewrite Hc. exact Hput.
  - intros ws' Hne.
    pose proof (conn_of_put ws ws' (mkConn (readyState c) (VStr u) (VStr s)) w)
      as Hput.
    destruct (decide (ws = ws')); [done|].
    unfold conn_of in *. cbn [set_outbox conns]. rewrite Hc. exact Hput.
  - exact Hm2.
  - unfold log_of at 1.
    match goal with
    | |- from_option _ _ (room_of _ ?w3) = _ =>
        change (room_of (VStr s) w3) with (room_of (VStr s) w2)
    end.
    rewrite Hr. cbn. by rewrite Hlog.
  - intros r' Hr'.
    match goal with
    | |- room_of _ ?w3 = _ =>
        change (room_of r' w3) with (room_of r' w2)
    end.
    by apply Hfr.
  - cbn. exact Ht.
  - cbn [outbox set_outbox]. rewrite Ho. cbn [outbox set_conns wa].
    rewrite <- !app_assoc. do 2 f_equal.
Qed.


Lemma palette_color (index : Z) :
  0 <= index →
  ∃ c, c ∈ palette ∧ c ≠ ""%string ∧ generateUserColor index = VStr c.
Proof.
  intros Hi. unfold generateUserColor. fold palette.
  change (JS.len palette) with 12.
  assert (Hm : 0 <= index `mod` 12 < 12) by (apply Z.mod_pos_bound; lia).
  unfold JS.index. destruct (Z.ltb_spec (index `mod` 12) 0) as [?|_]; [lia|].
  assert (Hn : (Z.to_nat (index `mod` 12) < 12)%nat) by lia.
  destruct (lookup_lt_is_Some_2 palette _ Hn) as [c Hc].
  rewrite Hc. exists c. split; [by eapply list_elem_of_lookup_2|].
  split; [|done].
  apply list_elem_of_lookup_2 in Hc.
  unfold palette in Hc.
  repeat (apply elem_of_cons in Hc as [->|Hc]; [done|]).
  by apply elem_of_nil in Hc.
Qed.

(** X14: for an index that is not negative (it is the size of a room),
    [generateUserColor] always gives one of the twelve colours of the
    palette, and gives the same colour again twelve participants later. *)
Theorem generateUserColor_cycles (index : Z) :
  0 <= index →
  (∃ c, c ∈ palette ∧ generateUserColor index = VStr c)
  ∧ generateUserColor (index + 12) = generateUserColor index.
Proof.
  intros Hi. split.
  - destruct (palette_color index Hi) as (c & Hin & _ & Hc). by exists c.
  - unfold generateUserColor.
    change (JS.len ["#FF6B6B"; "#4ECDC4"; "#45B7D1"; "#FFA07A"; "#98D8C8";
                    "#F7DC6F"; "#BB8FCE"; "#85C1E2"; "#F8B739"; "#52B788";
                    "#E63946"; "#457B9D"]%string) with 12.
    replace (index + 12) with (index + 1 * 12) by lia.
    by rewrite Z.mod_add.
Qed.

(** X15: a join, in any world the server gets into, with the ids it
    settles on being strings: the connection's variables become those ids;
    the room holds, under the user id, a participant with this socket, the
    cursor at the origin and a name and colour that are never empty; the
    other participants, the room's log, the other rooms and the timers are
    as before; the participant is added at the end of the room's map, or
    takes the place of the one registered under the same id.  The new
    socket is sent [init] with the roster and the log's snapshot, then the
    open sockets of the other participants are sent [user_joined]. *)
Theorem join_makes_participant (es : list Event) (ws : WS) (c : Conn)
    (message rnd : string) (data : value) (u s : string) :
  let w := run JSON_parse JSON_stringify initial_world es in
  conn_of ws w = Some c → readyState c = 1 →
  JSON_parse message = Some data →
  JS.prop data "type" = Some (VStr "join") →
  JS.or (field data "userId") (VStr (generateUserId (clock w) rnd)) = VStr u →
  JS.or (field data "roomId") (VStr "default") = VStr s →
  let w' := step JSON_parse JSON_stringify w (Message ws message rnd) in
  let n := JSMap.size (members (VStr s) w) in
  let user :=
    mkUser (VStr u) ws
      (JS.or (field data "name") (VStr ("User " +:+ pretty (n + 1))))
      (JS.or (field data "color") (generateUserColor n))
      (clock w) (VObj [("x", VNum 0); ("y", VNum 0)]) in
  conn_of ws w' = Some (mkConn 1 (VStr u) (VStr s))
  ∧ JSMap.get (VStr u) (members (VStr s) w') = Some user
  ∧ JS.truthy (user_name user) = true
  ∧ JS.truthy (user_color user) = true
  ∧ (∀ k, value_eqb (VStr u) k = false →
          JSMap.get k (members (VStr s) w') = JSMap.get k (members (VStr s) w))
  ∧ (members (VStr s) w').*1 =
      (if JSMap.has (VStr u) (members (VStr s) w)
       then (members (VStr s) w).*1
       else (members (VStr s) w).*1 ++ [VStr u])
  ∧ log_of (VStr s) w' = log_of (VStr s) w
  ∧ (∀ r', value_eqb (VStr s) r' = false → room_of r' w' = room_of r' w)
  ∧ timers w' = timers w
  ∧ outbox w' = outbox w ++
      [(ws, JSON_stringify (VObj
         [("type", VStr "init");
          ("userId", VStr u);
          ("user", public_user user);
          ("users", roster (members (VStr s) w'));
          ("drawingState", getFullState (log_of (VStr s) w))]))] ++
      audience (λ k, negb (value_eqb k (VStr u))) (members (VStr s) w') w'
        (JSON_stringify (VObj
           [("type", VStr "user_joined");
            ("user", public_user user);
            ("users", roster (members (VStr s) w'))])).
Proof.
  intros w Hc Hopen Hdata Htype Hu Hs. cbv zeta.
  destruct (run_ok JSON_parse JSON_stringify es) as (Hok & _ & _).
  fold w in Hok.
  rewrite (message_dispatch _ _ w ws c message rnd data (VStr "join"))
    by done.
  cbn [dispatch String.eqb Ascii.eqb Bool.eqb].
  destruct (handleJoin_spec ws c data rnd w u s Hok Hu Hs)
    as (Hc' & _ & Hm & Hlog & Hfr & Ht & Hout).
  cbv zeta in *. rewrite Hopen in Hc'.
  split_and!; try done.
  - rewrite Hm. apply get_set_str_same.
  - by apply or_truthy.
  - unfold JS.or. destruct (JS.truthy (field data "color")) eqn:E; [done|].
    destruct (palette_color (JSMap.size (members (VStr s) w)))
      as (col & _ & Hne & ->).
    { unfold JSMap.size. lia. }
    cbn. by destruct (String.eqb_spec col "").
  - intros k Hk. rewrite Hm. by apply get_set_str_other.
  - rewrite Hm. apply keys_set.
Qed.

End Joining.

(** ** Intents of a participant *)

Lemma log_of_inv r w : store_ok w → log_inv (log_of r w).
Proof.
  intros [_ Hrooms]. unfold log_of, room_of.
  destruct (JSMap.get r (rooms w)) as [l|]; cbn; [|apply log_inv_new].
  destruct (heap w !! l) as [room|] eqn:Hl; cbn; [|apply log_inv_new].
  by destruct (Hrooms l room Hl).
Qed.

Lemma undo_truthy s : JS.truthy (undo s).1 = JS.present (undo s).1.
Proof.
  unfold undo. destruct (currentIndex s <? 0); [done|]. cbn.
  unfold at_index. by destruct (JS.index _ _).
Qed.

Lemma redo_truthy s : JS.truthy (redo s).1 = JS.present (redo s).1.
Proof.
  unfold redo. destruct (currentIndex s >=? _); [done|]. cbn.
  unfold at_index. by destruct (JS.index _ _).
Qed.

Section Intents.
Variable JSON_parse : string → option value.
Variable JSON_stringify : value → string.


(** X17: an undo intent on a connection whose room id is a string applies
    [undo()] to the room's log.  When the log has something to undo, every
    open socket of the room, the sender's included, is sent the operation,
    the active operations and the two flags of the log as it is now; when
    it has not, nothing is sent and the log stays as it was. *)
Theorem undo_intent (es : list Event) (ws : WS) (c : Conn)
    (message rnd : string) (data : value) (s : string) :
  let w := run JSON_parse JSON_stringify initial_world es in
  conn_of ws w = Some c → readyState c = 1 → roomId c = VStr s →
  JSON_parse message = Some data →
  JS.prop data "type" = Some (VStr "undo") →
  let w' := step JSON_parse JSON_stringify w (Message ws message rnd) in
  let log := log_of (VStr s) w in
  log_of (VStr s) w' = (undo log).2
  ∧ (if canUndo log
     then JS.present (undo log).1 = true
          ∧ outbox w' = outbox w ++
              audience (λ _, true) (members (VStr s) w) w
                (JSON_stringify
                   (history_event "undo" (undo log).1 (undo log).2))
     else log_of (VStr s) w' = log ∧ outbox w' = outbox w)
  ∧ members (VStr s) w' = members (VStr s) w
  ∧ (∀ r', value_eqb (VStr s) r' = false → room_of r' w' = room_of r' w)
  ∧ conns w' = conns w ∧ timers w' = timers w.
Proof.
  intros w Hc Hopen Hroom Hdata Htype. cbv zeta.
  destruct (run_ok JSON_parse JSON_stringify es) as (Hok & _ & _).
  pose proof (run_store_ok JSON_parse JSON_stringify es) as Hso.
  fold w in Hok, Hso.
  rewrite (message_dispatch _ _ w ws c message rnd data (VStr "undo"))
    by done.
  cbn [dispatch String.eqb Ascii.eqb Bool.eqb].
  destruct (handleUndo_spec JSON_stringify c s data w Hok Hroom)
    as (Hlog & Hm & _ & Hfr & Hcs & Hts & Hout).
  cbv zeta in *.
  pose proof (undo_present _ (log_of_inv (VStr s) w Hso)) as Hcan.
  rewrite undo_truthy, <- Hcan in Hout.
  split_and!; try done.
  destruct (canUndo (log_of (VStr s) w)) eqn:E.
  - by split.
  - rewrite app_nil_r in Hout. split; [|done]. rewrite Hlog.
    unfold canUndo in E. unfold undo.
    destruct (Z.ltb_spec (currentIndex (log_of (VStr s) w)) 0); [done|].
    rewrite Z.geb_leb in E. apply Z.leb_gt in E. lia.
Qed.

(** X18: a redo intent does the same with [redo()]: the event goes to every
    open socket of the room when the log had something to redo, and
    nothing is sent and nothing changes in the log when it had not. *)
Theorem redo_intent (es : list Event) (ws : WS) (c : Conn)
    (message rnd : string) (data : value) (s : string) :
  let w := run JSON_parse JSON_stringify initial_world es in
  conn_of ws w = Some c → readyState c = 1 → roomId c = VStr s →
  JSON_parse message = Some data →
  JS.prop data "type" = Some (VStr "redo") →
  let w' := step JSON_parse JSON_stringify w (Message ws message rnd) in
  let log := log_of (VStr s) w in
  log_of (VStr s) w' = (redo log).2
  ∧ (if canRedo log
     then JS.present (redo log).1 = true
          ∧ outbox w' = outbox w ++
              audience (λ _, true) (members (VStr s) w) w
                (JSON_stringify
                   (history_event "redo" (redo log).1 (redo log).2))
     else log_of (VStr s) w' = log ∧ outbox w' = outbox w)
  ∧ members (VStr s) w' = members (VStr s) w
  ∧ (∀ r', value_eqb (VStr s) r' = false → room_of r' w' = room_of r' w)
  ∧ conns w' = conns w ∧ timers w' = timers w.
Proof.
  intros w Hc Hopen Hroom Hdata Htype. cbv zeta.
  destruct (run_ok JSON_parse JSON_stringify es) as (Hok & _ & _).
  pose proof (run_store_ok JSON_parse JSON_stringify es) as Hso.
  fold w in Hok, Hso.
  rewrite (message_dispatch _ _ w ws c message rnd data (VStr "redo"))
    by done.
  cbn [dispatch String.eqb Ascii.eqb Bool.eqb].
  destruct (handleRedo_spec JSON_stringify c s data w Hok Hroom)
    as (Hlog & Hm & _ & Hfr & Hcs & Hts & Hout).
  cbv zeta in *.
  pose proof (redo_present _ (log_of_inv (VStr s) w Hso)) as Hcan.
  rewrite redo_truthy, <- Hcan in Hout.
  split_and!; try done.
  destruct (canRedo (log_of (VStr s) w)) eqn:E.
  - by split.
  - rewrite app_nil_r in Hout. split; [|done]. rewrite Hlog.
    unfold canRedo in E. unfold redo. apply Z.ltb_ge in E.
    destruct (Z.geb_spec (currentIndex (log_of (VStr s) w))
                (JS.len (operations (log_of (VStr s) w)) - 1)); [done|lia].
Qed.

(** X19: a clear intent empties the room's log for good (no active
    operation, nothing to undo or redo) and sends [clear] to every open
    socket of the room, the sender's included. *)
Theorem clear_intent (es : list Event) (ws : WS) (c : Conn)
    (message rnd : string) (data : value) (s : string) :
  let w := run JSON_parse JSON_stringify initial_world es in
  conn_of ws w = Some c → readyState c = 1 → roomId c = VStr s →
  JSON_parse message = Some data →
  JS.prop data "type" = Some (VStr "clear") →
  let w' := step JSON_parse JSON_stringify w (Message ws message rnd) in
  operations (log_of (VStr s) w') = []
  ∧ getActiveOperations (log_of (VStr s) w') = []
  ∧ canUndo (log_of (VStr s) w') = false
  ∧ canRedo (log_of (VStr s) w') = false
  ∧ members (VStr s) w' = members (VStr s) w
  ∧ (∀ r', value_eqb (VStr s) r' = false → room_of r' w' = room_of r' w)
  ∧ conns w' = conns w ∧ timers w' = timers w
  ∧ outbox w' = outbox w ++
      audience (λ _, true) (members (VStr s) w) w
        (JSON_stringify (VObj [("type", VStr "clear")])).
Proof.
  intros w Hc Hopen Hroom Hdata Htype. cbv zeta.
  destruct (run_ok JSON_parse JSON_stringify es) as (Hok & _ & _).
  fold w in Hok.
  rewrite (message_dispatch _ _ w ws c message rnd data (VStr "clear"))
    by done.
  cbn [dispatch String.eqb Ascii.eqb Bool.eqb].
  destruct (handleClear_spec JSON_stringify c s data w Hok Hroom)
    as (Hlog & Hm & _ & Hfr & Hcs & Hts & Hout).
  cbv zeta in *. rewrite Hlog.
  split_and!; done.
Qed.

End Intents.

(** ** Presence: cursors and leaving *)

Lemma members_registered r w k user :
  JSMap.get k (members r w) = Some user →
  ∃ l room, JSMap.get r (rooms w) = Some l ∧ heap w !! l = Some room
            ∧ users room = members r w.
Proof.
  unfold members, room_of.
  destruct (JSMap.get r (rooms w)) as [l|]; cbn; [|done].
  destruct (heap w !! l) as [room|] eqn:Hl; cbn; [|done].
  intros _. by exists l, room.
Qed.

Lemma updateUserCursor_present s u cursor w user :
  rooms_ok w →
  JSMap.get (VStr u) (members (VStr s) w) = Some user →
  let w' := (updateUserCursor (VStr s) (VStr u) cursor w).2 in
  members (VStr s) w' =
    JSMap.set (VStr u) (set_cursor cursor user) (members (VStr s) w)
  ∧ log_of (VStr s) w' = log_of (VStr s) w
  ∧ (∀ r', value_eqb (VStr s) r' = false → room_of r' w' = room_of r' w)
  ∧ conns w' = conns w ∧ timers w' = timers w ∧ outbox w' = outbox w.
Proof.
  intros Hok Hu. cbv zeta.
  destruct (members_registered _ _ _ _ Hu) as (l & room & Hg & Hl & Hus).
  unfold updateUserCursor. rewrite bind_eq. cbn [gets fst snd]. rewrite Hg.
  rewrite bind_eq. unfold read_room, room_at. cbn [gets fst snd].
  rewrite Hl. cbn [default from_option id]. rewrite Hus, Hu.
  unfold update_room, modify. cbn [snd].
  destruct (alter_room_views s w l room
              (set_users (JSMap.set (VStr u) (set_cursor cursor user)))
              Hok Hg Hl) as (Hr & Hfr & _).
  cbv zeta in Hr, Hfr.
  unfold members, log_of. rewrite Hr. cbn [from_option set_users users
    drawingState].
  assert (Hroom : room_of (VStr s) w = Some room).
  { unfold room_of. rewrite Hg. cbn. exact Hl. }
  rewrite Hroom. cbn [from_option]. by rewrite Hus.
Qed.

Lemma removeUser_spec s u w :
  rooms_ok w →
  let w' := (removeUser (VStr s) u w).2 in
  members (VStr s) w' = JSMap.delete u (members (VStr s) w)
  ∧ log_of (VStr s) w' = log_of (VStr s) w
  ∧ (∀ r', value_eqb (VStr s) r' = false → room_of r' w' = room_of r' w)
  ∧ rooms w' = rooms w
  ∧ conns w' = conns w ∧ outbox w' = outbox w
  ∧ timers w' = timers w ++
      if JSMap.has (VStr s) (rooms w)
         && (JSMap.size (JSMap.delete u (members (VStr s) w)) =? 0)
      then [mkTimer (clock w + 5 * 60 * 1000) (VStr s)]
      else [].
Proof.
  intros Hok. cbv zeta. unfold removeUser, JSMap.has.
  rewrite bind_eq. cbn [gets fst snd].
  destruct (JSMap.get (VStr s) (rooms w)) as [l|] eqn:Hg.
  - destruct (registered_in_heap w _ l Hok Hg) as [room Hl].
    rewrite !bind_eq. unfold read_room, room_at, update_room.
    cbn [gets modify fst snd]. cbn [set_heap heap].
    rewrite list_lookup_alter_eq, Hl.
    cbn [fmap option_fmap option_map default from_option id set_users users].
    destruct (alter_room_views s w l room (set_users (JSMap.delete u))
                Hok Hg Hl) as (Hr & Hfr & _).
    cbv zeta in Hr, Hfr.
    assert (Hroom : room_of (VStr s) w = Some room).
    { unfold room_of. rewrite Hg. cbn. exact Hl. }
    assert (Hm : members (VStr s) w = users room).
    { unfold members. by rewrite Hroom. }
    rewrite Hm. cbn [andb].
    destruct (JSMap.size (JSMap.delete u (users room)) =? 0).
    + unfold setTimeout. rewrite bind_eq. cbn [gets modify fst snd].
      unfold members, log_of.
      change (room_of (VStr s) (set_timers _ ?x)) with (room_of (VStr s) x).
      rewrite Hr, Hroom. cbn.
      split_and!; try done.
    + cbn [ret snd]. unfold members, log_of. rewrite Hr, Hroom. cbn.
      rewrite app_nil_r. split_and!; done.
  - cbn [ret snd andb]. rewrite app_nil_r.
    unfold members, room_of. rewrite Hg. cbn. split_and!; done.
Qed.

Section Presence.
Variable JSON_parse : string → option value.
Variable JSON_stringify : value → string.

(** X20: a cursor intent of a participant (string ids, registered in its
    room) overwrites that participant's cursor and nothing else: the
    participant keeps its place in the room's map, the others and the log
    are as before, and the position is relayed to the open sockets of the
    other participants, not to the sender. *)
Theorem cursor_intent_updates_presence (es : list Event) (ws : WS)
    (c : Conn) (message rnd : string) (data : value) (u s : string)
    (user : User) :
  let w := run JSON_parse JSON_stringify initial_world es in
  conn_of ws w = Some c → readyState c = 1 →
  userId c = VStr u → roomId c = VStr s →
  JSMap.get (VStr u) (members (VStr s) w) = Some user →
  JSON_parse message = Some data →
  JS.prop data "type" = Some (VStr "cursor") →
  let w' := step JSON_parse JSON_stringify w (Message ws message rnd) in
  JSMap.get (VStr u) (members (VStr s) w')
    = Some (set_cursor (field data "cursor") user)
  ∧ (∀ k, value_eqb (VStr u) k = false →
          JSMap.get k (members (VStr s) w') = JSMap.get k (members (VStr s) w))
  ∧ (members (VStr s) w').*1 = (members (VStr s) w).*1
  ∧ log_of (VStr s) w' = log_of (VStr s) w
  ∧ (∀ r', value_eqb (VStr s) r' = false → room_of r' w' = room_of r' w)
  ∧ conns w' = conns w ∧ timers w' = timers w
  ∧ outbox w' = outbox w ++
      audience (λ k, negb (value_eqb k (VStr u))) (members (VStr s) w') w
        (JSON_stringify (VObj [("type", VStr "cursor"); ("userId", VStr u);
                               ("cursor", field data "cursor")])).
Proof.
  intros w Hc Hopen Hu Hs Hin Hdata Htype. cbv zeta.
  destruct (run_ok JSON_parse JSON_stringify es) as (Hok & _ & _).
  fold w in Hok.
  rewrite (message_dispatch _ _ w ws c message rnd data (VStr "cursor"))
    by done.
  cbn [dispatch String.eqb Ascii.eqb Bool.eqb].
  unfold handleCursor. rewrite bind_eq, Hu, Hs.
  destruct (updateUserCursor_present s u (field data "cursor") w user Hok Hin)
    as (Hm & Hlog & Hfr & Hcs & Hts & Hout).
  cbv zeta in *. rewrite broadcast_spec. cbn [snd].
  set (w1 := (updateUserCursor (VStr s) (VStr u) (field data "cursor") w).2)
    in *.
  change (members (VStr s) (set_outbox _ w1)) with (members (VStr s) w1).
  change (log_of (VStr s) (set_outbox _ w1)) with (log_of (VStr s) w1).
  rewrite (audience_frame _ _ w1 w) by done.
  rewrite Hm. split_and!; try done.
  - apply get_set_str_same.
  - intros k Hk. by apply get_set_str_other.
  - rewrite keys_set. unfold JSMap.has. by rewrite Hin.
  - cbn [set_outbox outbox]. by rewrite Hout.
Qed.


(** X22: when the connection of a participant closes (string ids), the
    participant registered under its user id is removed from its room and
    no other; the room stays registered with its log; a reclamation timer
    of five minutes is armed exactly when the room is registered and now
    has no participant; the remaining open sockets of the room are sent
    [user_left] with the new roster. *)
Theorem close_removes_participant (es : list Event) (ws : WS) (c : Conn)
    (u s : string) :
  let w := run JSON_parse JSON_stringify initial_world es in
  conn_of ws w = Some c → readyState c ≠ 3 →
  userId c = VStr u → roomId c = VStr s → u ≠ ""%string → s ≠ ""%string →
  let w' := step JSON_parse JSON_stringify w (Close ws) in
  conn_of ws w' = Some (mkConn 3 (VStr u) (VStr s))
  ∧ JSMap.get (VStr u) (members (VStr s) w') = None
  ∧ (∀ k, value_eqb (VStr u) k = false →
          JSMap.get k (members (VStr s) w') = JSMap.get k (members (VStr s) w))
  ∧ log_of (VStr s) w' = log_of (VStr s) w
  ∧ (∀ r', value_eqb (VStr s) r' = false → room_of r' w' = room_of r' w)
  ∧ rooms w' = rooms w
  ∧ timers w' = timers w ++
      (if JSMap.has (VStr s) (rooms w)
          && (JSMap.size (members (VStr s) w') =? 0)
       then [mkTimer (clock w + 5 * 60 * 1000) (VStr s)]
       else [])
  ∧ outbox w' = outbox w ++
      audience (λ k, negb (value_eqb k (VStr u))) (members (VStr s) w') w'
        (JSON_stringify (VObj [("type", VStr "user_left");
                               ("userId", VStr u);
                               ("users", roster (members (VStr s) w'))])).
Proof.
  intros w Hc Hopen Hu Hs Hune Hsne. cbv zeta.
  destruct (run_ok JSON_parse JSON_stringify es) as (Hok & _ & _).
  destruct (run_store_ok JSON_parse JSON_stringify es) as [_ Hso].
  fold w in Hok, Hso.
  cbn [step]. rewrite Hc.
  destruct (Z.eqb_spec (readyState c) 3) as [?|_]; [done|].
  unfold on_close. rewrite Hu, Hs. cbn [JS.truthy].
  destruct (String.eqb_spec u "") as [?|_]; [done|].
  destruct (String.eqb_spec s "") as [?|_]; [done|]. cbn [negb andb].
  set (w0 := set_conns (put_conn ws (mkConn 3 (VStr u) (VStr s))) w).
  assert (Hok0 : rooms_ok w0) by exact Hok.
  rewrite !bind_eq.
  destruct (removeUser_spec s (VStr u) w0 Hok0)
    as (Hm & Hlog & Hfr & Hrooms & Hcs & Hout & Hts).
  cbv zeta in *.
  set (w1 := (removeUser (VStr s) (VStr u) w0).2) in *.
  rewrite getRoomUsers_pure, getRoomUsers_value, broadcast_spec. cbn [snd].
  change (members (VStr s) (set_outbox _ w1)) with (members (VStr s) w1).
  change (log_of (VStr s) (set_outbox _ w1)) with (log_of (VStr s) w1).
  change (members (VStr s) w0) with (members (VStr s) w) in *.
  change (log_of (VStr s) w0) with (log_of (VStr s) w) in *.
  assert (Hnd : NoDup (members (VStr s) w).*1).
  { unfold members, room_of.
    destruct (JSMap.get (VStr s) (rooms w)) as [l|]; cbn; [|constructor].
    destruct (heap w !! l) as [room|] eqn:Hl; cbn; [|constructor].
    by destruct (Hso l room Hl). }
  split_and!.
  - unfold conn_of. cbn [set_outbox conns]. rewrite Hcs.
    pose proof (conn_of_put ws ws (mkConn 3 (VStr u) (VStr s)) w) as Hput.
    destruct (decide (ws = ws)); [|done]. exact Hput.
  - rewrite Hm. by apply get_delete_str_same.
  - intros k Hk. rewrite Hm. by apply get_delete_str_other.
  - exact Hlog.
  - intros r' Hr'.
    change (room_of r' (set_outbox _ w1)) with (room_of r' w1).
    by apply Hfr.
  - exact Hrooms.
  - cbn [set_outbox timers]. rewrite Hts, Hm. done.
  - cbn [set_outbox outbox]. rewrite Hout. done.
Qed.

End Presence.

(** ** The registry: lookup, reclamation, statistics *)

Section Registry.
Variable JSON_parse : string → option value.
Variable JSON_stringify : value → string.

(** X23: [getRoom] is idempotent on a string id: in any world the server
    gets into, a second call returns the same Room object and changes
    nothing; the first call changes nothing either when the room is
    registered, and otherwise registers a Room with no participant and an
    empty log; another string id gets a different Room object. *)
Theorem getRoom_is_idempotent (es : list Event) (s s' : string) :
  s ≠ s' →
  let w := run JSON_parse JSON_stringify initial_world es in
  let g1 := getRoom (VStr s) w in
  let g2 := getRoom (VStr s) g1.2 in
  g2 = (g1.1, g1.2)
  ∧ room_of (VStr s) g1.2 =
      Some (default (mkRoom (VStr s) [] new_DrawingState (clock w))
              (room_of (VStr s) w))
  ∧ (if JSMap.has (VStr s) (rooms w) then g1.2 = w
     else rooms g1.2 = rooms w ++ [(VStr s, g1.1)])
  ∧ (getRoom (VStr s') g1.2).1 ≠ g1.1.
Proof.
  intros Hne. cbv zeta.
  destruct (run_ok JSON_parse JSON_stringify es) as (Hok & _ & _).
  set (w := run JSON_parse JSON_stringify initial_world es) in *.
  destruct (getRoom_spec s w Hok)
    as (room & Hg & Hl & Hlog & Hus & Hok1 & _ & _ & _ & _ & _ & Hsame).
  cbv zeta in *.
  split_and!.
  - rewrite (getRoom_found _ _ _ Hg). done.
  - unfold room_of at 1. rewrite Hg. cbn. rewrite Hl. f_equal.
    unfold getRoom in Hl. unfold room_of.
    destruct (JSMap.get (VStr s) (rooms w)) as [l|] eqn:Hgw; cbn in *.
    + by rewrite Hl.
    + rewrite list_lookup_middle in Hl by done. by injection Hl.
  - unfold JSMap.has, getRoom.
    destruct (JSMap.get (VStr s) (rooms w)) as [l|] eqn:Hgw; [done|].
    cbn. by apply set_fresh.
  - assert (Hsn : value_eqb (VStr s) (VStr s') = false).
    { cbn. by destruct (String.eqb_spec s s'). }
    unfold getRoom at 1.
    destruct (JSMap.get (VStr s') (rooms (getRoom (VStr s) w).2))
      as [l3|] eqn:Hg3; cbn [fst].
    + intros ->.
      by eapply (other_room_elsewhere _ s (VStr s') _ _ Hok1 Hg Hg3 Hsn).
    + apply lookup_lt_Some in Hl. lia.
Qed.

Lemma reclaim_keeps_empty s r' w :
  NoDup (rooms w).*1 → members (VStr s) w = [] →
  let w' := (reclaim r' w).2 in
  NoDup (rooms w').*1 ∧ members (VStr s) w' = [] ∧ heap w' = heap w
  ∧ (JSMap.get (VStr s) (rooms w) = None →
     JSMap.get (VStr s) (rooms w') = None).
Proof.
  intros Hnd Hempty. cbv zeta. unfold reclaim. rewrite bind_eq.
  cbn [gets fst snd].
  destruct (JSMap.get r' (rooms w)) as [l'|] eqn:Hg'; [|done].
  rewrite bind_eq. unfold read_room, room_at. cbn [gets fst snd].
  destruct (JSMap.size (users (default no_room (heap w !! l'))) =? 0);
    [|done].
  cbn. split_and!; [by apply NoDup_keys_delete| |done|by apply get_none_delete].
  unfold members, room_of in *. cbn [rooms heap].
  destruct (JSMap.get (VStr s) (JSMap.delete r' (rooms w))) as [l|] eqn:Hg;
    [|done].
  apply get_elem in Hg as (k & Hin & Hk). apply eqb_str_l in Hk as ->.
  assert (Hin' : (VStr s, l) ∈ rooms w).
  { eapply elem_of_sublist; [exact Hin|apply delete_sublist]. }
  destruct (JSMap.get (VStr s) (rooms w)) as [l0|] eqn:Hg0.
  - apply get_elem in Hg0 as (k0 & Hin0 & Hk0). apply eqb_str_l in Hk0 as ->.
    assert (l = l0) as ->; [|done].
    by eapply (fst_unique _ _ _ _ Hnd Hin' Hin0).
  - exfalso. apply (get_none_not_key _ _ Hg0).
    apply list_elem_of_fmap. by exists (VStr s, l).
Qed.

Lemma reclaim_removes_empty s w :
  NoDup (rooms w).*1 → members (VStr s) w = [] →
  JSMap.get (VStr s) (rooms (reclaim (VStr s) w).2) = None.
Proof.
  intros Hnd Hempty. unfold reclaim. rewrite bind_eq. cbn [gets fst snd].
  destruct (JSMap.get (VStr s) (rooms w)) as [l|] eqn:Hg; [|done].
  rewrite bind_eq. unfold read_room, room_at. cbn [gets fst snd].
  assert (Hus : users (default no_room (heap w !! l)) = []).
  { unfold members, room_of in Hempty. rewrite Hg in Hempty. cbn in Hempty.
    by destruct (heap w !! l). }
  rewrite Hus. cbn. by apply get_delete_str_same.
Qed.

Lemma timers_remove_empty s (t : Timer) (ts : list Timer) : ∀ w,
  NoDup (rooms w).*1 → members (VStr s) w = [] →
  timer_room t = VStr s →
  t ∈ ts ∨ JSMap.get (VStr s) (rooms w) = None →
  let w' := (for_each ts (λ t, reclaim (timer_room t)) w).2 in
  JSMap.get (VStr s) (rooms w') = None ∧ heap w' = heap w.
Proof.
  induction ts as [|t0 ts IH]; intros w Hnd Hempty Ht Hor; cbv zeta.
  - destruct Hor as [Hin|Hnone]; [by apply elem_of_nil in Hin|done].
  - cbn [for_each]. rewrite bind_eq.
    destruct (reclaim_keeps_empty s (timer_room t0) w Hnd Hempty)
      as (Hnd1 & Hempty1 & Hheap1 & Hnone1).
    cbv zeta in *.
    destruct (IH (reclaim (timer_room t0) w).2 Hnd1 Hempty1 Ht) as [Hg Hh].
    + destruct Hor as [Hin|Hnone]; [|right; by apply Hnone1].
      apply elem_of_cons in Hin as [->|Hin]; [|by left].
      right. rewrite Ht. by apply reclaim_removes_empty.
    + cbv zeta in *. split; [exact Hg|]. by rewrite Hh.
Qed.

(** X24: in any world the server gets into, when time passes beyond the
    due time of a pending timer of a room (string id) that has no
    participant, the room is no longer registered; Room objects themselves
    are left alone, and a later [getRoom] for the id makes a new Room, at a
    new address, with an empty log. *)
Theorem empty_room_is_reclaimed (es : list Event) (s : string) (t : Timer)
    (ms : Z) :
  let w := run JSON_parse JSON_stringify initial_world es in
  members (VStr s) w = [] →
  t ∈ timers w → timer_room t = VStr s → due t <= clock w + Z.max ms 0 →
  let w' := step JSON_parse JSON_stringify w (Elapse ms) in
  JSMap.get (VStr s) (rooms w') = None
  ∧ heap w' = heap w
  ∧ (getRoom (VStr s) w').1 = length (heap w)
  ∧ room_of (VStr s) (getRoom (VStr s) w').2
    = Some (mkRoom (VStr s) [] new_DrawingState (clock w + Z.max ms 0)).
Proof.
  intros w Hempty Hin Ht Hdue. cbv zeta.
  destruct (run_store_ok JSON_parse JSON_stringify es) as [Hnd _].
  fold w in Hnd.
  cbn [step]. unfold run_timers. rewrite !bind_eq.
  cbn [gets modify fst snd].
  match goal with
  | |- context [for_each ?ts ?f ?w1] =>
      destruct (timers_remove_empty s t ts w1 Hnd Hempty Ht) as [Hg Hh]
  end.
  { left. apply list_elem_of_filter. split; [|exact Hin].
    unfold is_due. cbn. by apply Z.leb_le. }
  cbv zeta in *.
  match goal with
  | H : JSMap.get (VStr s) (rooms ?x) = None |- _ => set (w2 := x) in *
  end.
  assert (Hclock : clock w2 = clock w + Z.max ms 0).
  { unfold w2. clear.
    match goal with
    | |- clock (for_each ?ts ?f ?w1).2 = _ =>
        generalize ts; intros ts'; change (clock w + Z.max ms 0)
          with (clock w1); generalize w1
    end.
    induction ts' as [|t0 ts' IH]; intros w1; [done|].
    cbn [for_each]. rewrite bind_eq, IH.
    unfold reclaim. rewrite bind_eq. cbn [gets fst snd].
    destruct (JSMap.get (timer_room t0) (rooms w1)); [|done].
    rewrite bind_eq. cbn [read_room gets fst snd].
    by destruct (JSMap.size _ =? 0). }
  cbn [set_heap heap] in Hh.
  split_and!; try done.
  - unfold getRoom. rewrite Hg. cbn. by rewrite Hh.
  - unfold getRoom. rewrite Hg. cbn [fst snd]. unfold room_of.
    cbn [set_rooms set_heap rooms heap].
    rewrite (set_fresh _ _ _ Hg), get_snoc, Hg. cbn.
    rewrite String.eqb_refl. cbn.
    rewrite list_lookup_middle by done. by rewrite Hclock.
Qed.

End Registry.

(** *** Statistics *)

Lemma total_from (g : loc → Z) (m : list (value * loc)) (a : Z) :
  foldl (λ sum (e : value * loc), sum + g e.2) a m
  = a + foldl (λ sum (e : value * loc), sum + g e.2) 0 m.
Proof.
  revert a. induction m as [|e m IH]; intros a; cbn; [lia|].
  rewrite (IH (a + g e.2)), (IH (0 + g e.2)). lia.
Qed.

Lemma total_delete (g : loc → Z) (m : list (value * loc)) r l :
  JSMap.get r m = Some l →
  foldl (λ sum (e : value * loc), sum + g e.2) 0 (JSMap.delete r m) + g l
  = foldl (λ sum (e : value * loc), sum + g e.2) 0 m
  ∧ JSMap.size (JSMap.delete r m) = JSMap.size m - 1.
Proof.
  induction m as [|[k x] m IH]; cbn; [done|].
  destruct (value_eqb k r) eqn:Hk.
  - intros [= ->]. rewrite (total_from g m (0 + g l)).
    unfold JSMap.size. cbn [length]. lia.
  - intros Hg. destruct (IH Hg) as [IHsum IHsize]. cbn.
    rewrite (total_from g _ (0 + g x)), (total_from g m (0 + g x)).
    unfold JSMap.size in *. cbn [length]. lia.
Qed.

Section Statistics.
Variable JSON_parse : string → option value.
Variable JSON_stringify : value → string.

Lemma reclaim_keeps_total r w :
  let w' := (reclaim r w).2 in
  heap w' = heap w
  ∧ field (getStats w') "totalUsers" = field (getStats w) "totalUsers"
  ∧ JSMap.size (rooms w') <= JSMap.size (rooms w).
Proof.
  cbv zeta. unfold reclaim. rewrite bind_eq. cbn [gets fst snd].
  destruct (JSMap.get r (rooms w)) as [l|] eqn:Hg; [|by split_and!].
  rewrite bind_eq. unfold read_room. cbn [gets fst snd].
  destruct (Z.eqb_spec (JSMap.size (users (default no_room (room_at l w)))) 0)
    as [Hzero|_]; [|by split_and!].
  cbn [modify snd].
  destruct (total_delete
              (λ l, JSMap.size (users (default no_room (room_at l w))))
              (rooms w) r l Hg) as [Hsum Hsize].
  cbn beta in Hsum. rewrite Hzero in Hsum.
  split_and!; [done| |cbn [set_rooms rooms]; lia].
  unfold getStats, field. cbn [JS.prop JS.get String.eqb Ascii.eqb Bool.eqb
    default from_option id].
  f_equal. unfold room_at. cbn [set_rooms rooms heap].
  unfold room_at in Hsum. lia.
Qed.

(** X25: reclamation never loses a participant from the statistics of
    [/health]: when time passes, whichever timers fire, [totalUsers] is
    unchanged and [totalRooms] does not grow. *)
Theorem reclamation_keeps_user_count (w : World) (ms : Z) :
  let w' := step JSON_parse JSON_stringify w (Elapse ms) in
  field (getStats w') "totalUsers" = field (getStats w) "totalUsers"
  ∧ JSMap.size (rooms w') <= JSMap.size (rooms w).
Proof.
  cbv zeta. cbn [step]. unfold run_timers. rewrite !bind_eq.
  cbn [gets modify fst snd].
  match goal with
  | |- context [for_each ?ts ?f ?w1] =>
      change (getStats w) with (getStats w1);
      change (rooms w) with (rooms w1);
      generalize ts; intros ts'; generalize w1
  end.
  induction ts' as [|t0 ts' IH]; intros w1; [by split|].
  cbn [for_each]. rewrite bind_eq.
  destruct (reclaim_keeps_total (timer_room t0) w1) as (_ & Hsum & Hsize).
  destruct (IH (reclaim (timer_room t0) w1).2) as [IHsum IHsize].
  cbv zeta in *. split; [by rewrite IHsum|lia].
Qed.

End Statistics.

(** * The properties at concrete inputs *)

Lemma clear_is_final_witness :
  forallb is_move [CallUndo; CallRedo; CallRedo] = true
  ∧ run_calls (clear sample_log) [CallUndo; CallRedo; CallRedo]
    = clear sample_log.
Proof.
  split; [done|].
  refine (proj1 (clear_is_final sample_log [CallUndo; CallRedo; CallRedo] _)).
  done.
Defined.

Lemma redo_then_undo_witness :
  canRedo sample_log = true
  ∧ (undo (redo sample_log).2).2 = sample_log.
Proof.
  split; [by vm_compute|].
  refine (proj1 (redo_then_undo sample_log sample_log_reachable _)).
  by vm_compute.
Defined.

Lemma undo_takes_last_active_witness :
  canUndo sample_log = true
  ∧ ∃ o, (undo sample_log).1 = VObj o
         ∧ getActiveOperations sample_log
           = getActiveOperations (undo sample_log).2 ++ [o].
Proof.
  split; [by vm_compute|].
  apply (undo_takes_last_active sample_log sample_log_reachable).
  by vm_compute.
Defined.

Lemma redo_adds_next_active_witness :
  canRedo sample_log = true
  ∧ ∃ o, (redo sample_log).1 = VObj o
         ∧ getActiveOperations (redo sample_log).2
           = getActiveOperations sample_log ++ [o].
Proof.
  split; [by vm_compute|].
  apply (redo_adds_next_active sample_log sample_log_reachable).
  by vm_compute.
Defined.

Lemma addOperation_returns_stored_witness :
  let r := addOperation sample_log (VObj [("type", VStr "draw")]) 4 "op_4_d" in
  canRedo sample_log = true
  ∧ operations r.2 = getActiveOperations r.2
  ∧ canRedo r.2 = false.
Proof.
  cbv zeta. split; [by vm_compute|].
  destruct (addOperation_returns_stored sample_log
              (VObj [("type", VStr "draw")]) 4 "op_4_d" sample_log_reachable)
    as (_ & _ & Hops & _ & _ & Hredo).
  split; [exact Hops|exact Hredo].
Defined.

Lemma unknown_type_is_ignored_witness :
  wider_parse ping_text = Some (value_of [("type", "ping")]%string)
  ∧ step wider_parse sample_stringify lobby (Message 1%nat ping_text "")
    = lobby.
Proof.
  split; [by vm_compute|].
  apply (unknown_type_is_ignored wider_parse sample_stringify lobby 1%nat
           ping_text "" (value_of [("type", "ping")]%string) (VStr "ping"));
    [by vm_compute|by vm_compute|].
  intros t [= <-] Hin%list_elem_of_In. cbn in Hin.
  repeat (destruct Hin as [Hin|Hin]; [discriminate Hin|]). exact Hin.
Defined.

Lemma null_message_gets_error_witness :
  let w' := step wider_parse sample_stringify lobby
              (Message 1%nat "null" "") in
  wider_parse "null" = Some VNull
  ∧ rooms w' = rooms lobby
  ∧ conns w' = conns lobby.
Proof.
  cbv zeta. split; [by vm_compute|].
  destruct (null_message_gets_error wider_parse sample_stringify lobby
              1%nat (mkConn 1 VNull (VStr "default")) "null" "")
    as (_ & Hrooms & _ & _ & Hconns);
    [by vm_compute|by vm_compute|by vm_compute|].
  split; [exact Hrooms|exact Hconns].
Defined.

Lemma close_of_unjoined_witness :
  let w' := step sample_parse sample_stringify lobby (Close 1%nat) in
  conn_of 1%nat lobby = Some (mkConn 1 VNull (VStr "default"))
  ∧ rooms w' = rooms lobby
  ∧ outbox w' = outbox lobby
  ∧ conn_of 1%nat w' = Some (mkConn 3 VNull (VStr "default")).
Proof.
  cbv zeta. split; [by vm_compute|].
  destruct (close_of_unjoined sample_parse sample_stringify lobby 1%nat
              (mkConn 1 VNull (VStr "default")))
    as (Hrooms & _ & _ & Hout & Hconn);
    [by vm_compute|by vm_compute|by vm_compute|].
  split_and!; [exact Hrooms|exact Hout|exact Hconn].
Defined.

Lemma generateUserColor_cycles_witness :
  generateUserColor (13 + 12) = generateUserColor 13.
Proof.
  refine (proj2 (generateUserColor_cycles 13 _)). lia.
Defined.

Lemma join_makes_participant_witness :
  let w := sample_run initial_world [Connection 1%nat] in
  let w' := step sample_parse sample_stringify w
              (Message 1%nat (join_a "u1") "r0") in
  conn_of 1%nat w = Some (mkConn 1 VNull (VStr "default"))
  ∧ conn_of 1%nat w' = Some (mkConn 1 (VStr "u1") (VStr "a"))
  ∧ log_of (VStr "a") w' = log_of (VStr "a") w
  ∧ timers w' = timers w.
Proof.
  cbv zeta. split; [by vm_compute|].
  destruct (join_makes_participant sample_parse sample_stringify
              [Connection 1%nat] 1%nat (mkConn 1 VNull (VStr "default"))
              (join_a "u1") "r0"
              (value_of [("type", "join"); ("userId", "u1");
                         ("roomId", "a")]%string)
              "u1" "a")
    as (Hconn & _ & _ & _ & _ & _ & Hlog & _ & Htimers & _);
    [by vm_compute|by vm_compute|by vm_compute|by vm_compute
    |by vm_compute|by vm_compute|].
  split_and!; [exact Hconn|exact Hlog|exact Htimers].
Defined.


Lemma undo_intent_witness :
  let w' := step sample_parse sample_stringify studio
              (Message 1%nat (text_of [("type", "undo")]%string) "") in
  conn_of 1%nat studio = Some (mkConn 1 (VStr "u1") (VStr "a"))
  ∧ log_of (VStr "a") w' = (undo (log_of (VStr "a") studio)).2
  ∧ members (VStr "a") w' = members (VStr "a") studio.
Proof.
  cbv zeta. split; [by vm_compute|].
  destruct (undo_intent sample_parse sample_stringify studio_events
              1%nat (mkConn 1 (VStr "u1") (VStr "a"))
              (text_of [("type", "undo")]%string) ""
              (value_of [("type", "undo")]%string) "a")
    as (Hlog & _ & Hm & _);
    [by vm_compute|by vm_compute|by vm_compute|by vm_compute
    |by vm_compute|].
  split; [exact Hlog|exact Hm].
Defined.

Lemma redo_intent_witness :
  let w := sample_run studio
             [Message 1%nat (text_of [("type", "undo")]%string) ""] in
  let w' := step sample_parse sample_stringify w
              (Message 1%nat (text_of [("type", "redo")]%string) "") in
  canRedo (log_of (VStr "a") w) = true
  ∧ log_of (VStr "a") w' = (redo (log_of (VStr "a") w)).2
  ∧ members (VStr "a") w' = members (VStr "a") w.
Proof.
  cbv zeta. split; [by vm_compute|].
  destruct (redo_intent sample_parse sample_stringify
              (studio_events ++
               [Message 1%nat (text_of [("type", "undo")]%string) ""])
              1%nat (mkConn 1 (VStr "u1") (VStr "a"))
              (text_of [("type", "redo")]%string) ""
              (value_of [("type", "redo")]%string) "a")
    as (Hlog & _ & Hm & _);
    [by vm_compute|by vm_compute|by vm_compute|by vm_compute
    |by vm_compute|].
  split; [exact Hlog|exact Hm].
Defined.

Lemma clear_intent_witness :
  let w' := step sample_parse sample_stringify studio
              (Message 1%nat (text_of [("type", "clear")]%string) "") in
  length (operations (log_of (VStr "a") studio)) = 1%nat
  ∧ operations (log_of (VStr "a") w') = []
  ∧ canUndo (log_of (VStr "a") w') = false.
Proof.
  cbv zeta. split; [by vm_compute|].
  destruct (clear_intent sample_parse sample_stringify studio_events
              1%nat (mkConn 1 (VStr "u1") (VStr "a"))
              (text_of [("type", "clear")]%string) ""
              (value_of [("type", "clear")]%string) "a")
    as (Hops & _ & Hundo & _);
    [by vm_compute|by vm_compute|by vm_compute|by vm_compute
    |by vm_compute|].
  split; [exact Hops|exact Hundo].
Defined.

Lemma cursor_intent_updates_presence_witness :
  let w' := step sample_parse sample_stringify studio
              (Message 1%nat cursor_text "") in
  user_cursor <$> JSMap.get (VStr "u1") (members (VStr "a") studio)
    = Some (VObj [("x", VNum 0); ("y", VNum 0)])
  ∧ user_cursor <$> JSMap.get (VStr "u1") (members (VStr "a") w')
    = Some (VStr "here")
  ∧ log_of (VStr "a") w' = log_of (VStr "a") studio.
Proof.
  cbv zeta. split; [by vm_compute|].
  destruct (cursor_intent_updates_presence sample_parse sample_stringify
              studio_events 1%nat (mkConn 1 (VStr "u1") (VStr "a"))
              cursor_text ""
              (value_of [("type", "cursor"); ("cursor", "here")]%string)
              "u1" "a"
              (mkUser (VStr "u1") 1%nat (VStr "User 1") (VStr "#FF6B6B") 0
                 (VObj [("x", VNum 0); ("y", VNum 0)])))
    as (Hget & _ & _ & Hlog & _);
    [by vm_compute|by vm_compute|by vm_compute|by vm_compute
    |by vm_compute|by vm_compute|by vm_compute|].
  split; [|exact Hlog].
  exact (f_equal (fmap user_cursor) Hget).
Defined.


Lemma close_removes_participant_witness :
  let w' := step sample_parse sample_stringify studio (Close 1%nat) in
  JSMap.has (VStr "u1") (members (VStr "a") studio) = true
  ∧ JSMap.get (VStr "u1") (members (VStr "a") w') = None
  ∧ log_of (VStr "a") w' = log_of (VStr "a") studio
  ∧ rooms w' = rooms studio.
Proof.
  cbv zeta. split; [by vm_compute|].
  destruct (close_removes_participant sample_parse sample_stringify
              studio_events 1%nat (mkConn 1 (VStr "u1") (VStr "a"))
              "u1" "a")
    as (_ & Hget & _ & Hlog & _ & Hrooms & _);
    [by vm_compute|by vm_compute|by vm_compute|by vm_compute
    |done|done|].
  split_and!; [exact Hget|exact Hlog|exact Hrooms].
Defined.

Lemma getRoom_is_idempotent_witness :
  let g1 := getRoom (VStr "a") initial_world in
  getRoom (VStr "a") g1.2 = (g1.1, g1.2)
  ∧ (getRoom (VStr "b") g1.2).1 ≠ g1.1.
Proof.
  cbv zeta.
  destruct (getRoom_is_idempotent sample_parse sample_stringify [] "a" "b")
    as (Hsame & _ & _ & Hother); [done|].
  split; [exact Hsame|exact Hother].
Defined.

Lemma empty_room_is_reclaimed_witness :
  let w := sample_run initial_world deserted_events in
  let w' := step sample_parse sample_stringify w (Elapse 300000) in
  JSMap.has (VStr "a") (rooms w) = true
  ∧ JSMap.get (VStr "a") (rooms w') = None
  ∧ heap w' = heap w.
Proof.
  cbv zeta. split; [by vm_compute|].
  destruct (empty_room_is_reclaimed sample_parse sample_stringify
              deserted_events "a" (mkTimer 300000 (VStr "a")) 300000)
    as (Hget & Hheap & _);
    [by vm_compute|apply list_elem_of_here|done|by vm_compute|].
  split; [exact Hget|exact Hheap].
Defined.
